(** * Lahelu -> Fediverse bridge: a shallow embedding of [server.js]

    The bridge keeps four SQLite tables, talks to the Lahelu HTTP API with
    [fetch], and registers dispatchers and inbox listeners with Fedify.
    This development models

    - the tables as lists of rows in table order, with the primary-key
      behaviour of each SQL statement written out ([INSERT] raises on a
      key conflict, [INSERT OR REPLACE] deletes the conflicting rows,
      [INSERT OR IGNORE] skips);
    - the asynchronous functions as computations in a state-and-exception
      monad over a [World] (database, wall clock, network, entropy, and a
      chronological trace of the externally visible effects);
    - what belongs to the JavaScript runtime or to Fedify (JSON text, key
      generation, JWK import/export, the URL parser) as the operations of
      a [Runtime] class.

    Values coming from the platform are typed as its contract gives them
    (strings for names and ids, integers for times, a list for the post
    listing); optional fields are options.  Fedify's vocabulary
    constructors accept only [URL] objects where a URL is expected and
    raise a [TypeError] on a string; [ctx.sendActivity] with an
    identifier as sender obtains the sender's keys through the registered
    key-pair dispatcher.  Console output is not modelled. *)

From Stdlib Require Import ZArith String Ascii List Bool Lia.
From Stdlib Require Import Permutation Sorted.
Import ListNotations.

Local Open Scope string_scope.
Local Open Scope Z_scope.
Local Open Scope list_scope.

Set Warnings "-register-all".

(* ================================================================== *)
(** ** Values exchanged with the outside *)

(** A parsed JSON value.  The bridge never inspects post content or key
    exports; it only hands them to [JSON.stringify] / [JSON.parse]. *)
Inductive Json : Type :=
| JNull
| JBool (b : bool)
| JNumber (z : Z)
| JString (s : string)
| JArray (items : list Json)
| JObject (members : list (string * Json)).

(** A WHATWG [URL] object, as far as the handlers look at it. *)
Record URL : Type := mkURL { href : string; pathname : string }.

(** JavaScript truthiness of a possibly missing string
    ([undefined], [null] and the empty string are falsy). *)
Definition truthy (v : option string) : bool :=
  match v with
  | Some s => negb (String.eqb s "")
  | None => false
  end.

(** JavaScript truthiness of a parsed JSON value. *)
Definition json_truthy (j : Json) : bool :=
  match j with
  | JNull => false
  | JBool b => b
  | JNumber z => negb (z =? 0)
  | JString s => negb (String.eqb s "")
  | JArray _ => true
  | JObject _ => true
  end.

(** [v || ""] for a possibly missing string. *)
Definition or_empty (v : option string) : string :=
  match v with
  | Some s => s
  | None => ""
  end.

(** [userInfo] of the platform's [get-username] answer. *)
Module UserInfo.
Record t : Type := mk {
  username : string;
  userId : string;
  description : option string;
  avatar : option string;
  createTime : Z
}.
End UserInfo.

(** One element of [postInfos] of the platform's [get-user-posts] answer. *)
Module PostInfo.
Record t : Type := mk {
  postId : string;
  title : string;
  content : option Json;
  isSensitive : bool;
  createTime : Z
}.
End PostInfo.

(** The object [await r.json()] yields; the code reads [data.userInfo] or
    [data.postInfos], either of which may be missing. *)
Record Data : Type := mkData {
  userInfo : option UserInfo.t;
  postInfos : option (list PostInfo.t)
}.

(** What [await fetch(url)] does: the promise rejects (network failure),
    or resolves to a response with an [ok] flag whose [json()] either
    yields an object ([Some]) or rejects ([None]). *)
Inductive FetchResult : Type :=
| Rejected
| Response (ok : bool) (json : option Data).

(** The answer of the network to one request, with the wall-clock time
    that passes while the request is awaited. *)
Record Reply : Type := mkReply { elapsed : Z; result : FetchResult }.

(* ================================================================== *)
(** ** The tables *)

Module User.
Record t : Type := mk {
  username : string;
  userId : string;
  description : string;
  avatar : string;
  createdAt : Z;
  lastPostSync : Z;
  lastCommentSync : Z;
  publicKey : option string;
  privateKey : option string
}.

Definition set_lastPostSync (v : Z) (u : t) : t :=
  mk (username u) (userId u) (description u) (avatar u) (createdAt u)
     v (lastCommentSync u) (publicKey u) (privateKey u).

Definition set_keys (pub priv : string) (u : t) : t :=
  mk (username u) (userId u) (description u) (avatar u) (createdAt u)
     (lastPostSync u) (lastCommentSync u) (Some pub) (Some priv).
End User.

Module Post.
Record t : Type := mk {
  postId : string;
  username : string;
  title : string;
  rawContent : string;
  sensitive : Z;
  createdAt : Z
}.
End Post.

Module Follower.
Record t : Type := mk { username : string; actor : string }.

Definition is_pair (username' actor' : string) (f : t) : bool :=
  String.eqb (username f) username' && String.eqb (actor f) actor'.
End Follower.

(** The database: [users], [posts] and [followers].  The [comments]
    table is created by the schema but no statement ever touches it. *)
Record DB : Type := mkDB {
  users : list User.t;
  posts : list Post.t;
  followers : list Follower.t
}.

(** The write statements the bridge prepares and runs. *)
Inductive Stmt : Type :=
| InsertUser (row : User.t)
| InsertOrReplacePost (row : Post.t)
| UpdateLastPostSync (t : Z) (username : string)
| UpdateKeys (pub priv : string) (username : string)
| InsertOrIgnoreFollower (username actor : string)
| DeleteFollower (username actor : string).

(** [SELECT * FROM users WHERE username=?] with [.get]. *)
Definition selectUser (username : string) (d : DB) : option User.t :=
  find (fun u => String.eqb (User.username u) username) (users d).

(** [SELECT COUNT( * ) as c FROM followers WHERE username=?]. *)
Definition countFollowers (username : string) (d : DB) : Z :=
  Z.of_nat (length (filter
    (fun f => String.eqb (Follower.username f) username) (followers d))).

(** Rows of [followers] for one (username, actor) pair. *)
Definition followerRows (username actor : string) (d : DB) : list Follower.t :=
  filter (Follower.is_pair username actor) (followers d).

(** Rows of [posts] carrying one [postId]. *)
Definition postRows (postId : string) (d : DB) : list Post.t :=
  filter (fun p => String.eqb (Post.postId p) postId) (posts d).

(** Effect of one write statement; [None] is a [SqliteError] (the only
    statement that can raise is the plain [INSERT INTO users], on a
    primary-key conflict), in which case the table is left as it was. *)
Definition exec (s : Stmt) (d : DB) : option DB :=
  match s with
  | InsertUser row =>
      match selectUser (User.username row) d with
      | Some _ => None
      | None => Some (mkDB (users d ++ [row]) (posts d) (followers d))
      end
  | InsertOrReplacePost row =>
      Some (mkDB (users d)
                 (filter (fun p => negb (String.eqb (Post.postId p)
                                                    (Post.postId row)))
                         (posts d) ++ [row])
                 (followers d))
  | UpdateLastPostSync t username =>
      Some (mkDB (map (fun u => if String.eqb (User.username u) username
                                then User.set_lastPostSync t u else u)
                      (users d))
                 (posts d) (followers d))
  | UpdateKeys pub priv username =>
      Some (mkDB (map (fun u => if String.eqb (User.username u) username
                                then User.set_keys pub priv u else u)
                      (users d))
                 (posts d) (followers d))
  | InsertOrIgnoreFollower username actor =>
      if existsb (Follower.is_pair username actor) (followers d)
      then Some d
      else Some (mkDB (users d) (posts d)
                      (followers d ++ [Follower.mk username actor]))
  | DeleteFollower username actor =>
      Some (mkDB (users d) (posts d)
                 (filter (fun f => negb (Follower.is_pair username actor f))
                         (followers d)))
  end.

(** [hasFollowers(username)]. *)
Definition hasFollowers (username : string) (d : DB) : bool :=
  0 <? countFollowers username d.

(* ================================================================== *)
(** ** Fedify vocabulary, as far as the handlers build or read it *)

(** What a call site hands to a vocabulary constructor where Fedify
    expects a [URL] (or an object): a [URL], or a plain string. *)
Inductive Ref : Type :=
| RefURL (u : URL)
| RefString (s : string).

Record Note : Type := mkNote {
  note_id : URL;
  attributedTo : URL;
  content : string;
  published : Z;
  sensitive : bool
}.

Record Create : Type := mkCreate {
  create_actor : URL;
  create_to : URL;
  create_object : Note
}.

Record Accept : Type := mkAccept {
  accept_id : URL;
  accept_actor : URL;
  accept_object : URL
}.

(** The shapes [follow.id] can take: a [URL], a string, anything else. *)
Inductive ActivityId : Type :=
| IdURL (u : URL)
| IdString (s : string)
| IdOther.

Record Follow : Type := mkFollow {
  follow_actorId : option URL;
  follow_id : ActivityId
}.

(** What [await undo.getObject()] does: rejects, or resolves to a Follow,
    to some other object, or to nothing. *)
Inductive UndoObject : Type :=
| ObjectRejects
| ObjectFollow (f : Follow)
| ObjectOther.

Record Undo : Type := mkUndo {
  undo_actorId : option URL;
  undo_getObject : UndoObject
}.

(** The dispatcher argument is a bare string or an object carrying one. *)
Inductive Identifier : Type :=
| IdentifierString (s : string)
| IdentifierObject (identifier : string).

(* ================================================================== *)
(** ** Worlds, traces and the computation monad *)

Inductive Error : Type :=
| FetchError
| JsonError
| SqliteError
| TypeError
| ImportError
| DeliveryError.

Inductive Event : Type :=
| EvFetch (url : string)
| EvRun (s : Stmt)
| EvKeyGen
| EvSend (identifier : string) (recipient : URL) (activity : Accept).

Record World : Type := mkWorld {
  db : DB;
  now : Z;
  net : string -> Reply;
  entropy : nat;
  trace : list Event
}.

Definition with_db (d : DB) (w : World) : World :=
  mkWorld d (now w) (net w) (entropy w) (trace w).
Definition with_now (t : Z) (w : World) : World :=
  mkWorld (db w) t (net w) (entropy w) (trace w).
Definition with_net (n : string -> Reply) (w : World) : World :=
  mkWorld (db w) (now w) n (entropy w) (trace w).
Definition with_entropy (n : nat) (w : World) : World :=
  mkWorld (db w) (now w) (net w) n (trace w).
Definition emit (e : Event) (w : World) : World :=
  mkWorld (db w) (now w) (net w) (entropy w) (trace w ++ [e]).

Inductive Outcome (A : Type) : Type :=
| Ok (a : A)
| Throw (e : Error).
Arguments Ok {A} a.
Arguments Throw {A} e.

Definition M (A : Type) : Type := World -> Outcome A * World.

Definition ret {A} (a : A) : M A := fun w => (Ok a, w).
Definition throw {A} (e : Error) : M A := fun w => (Throw e, w).
Definition bind {A B} (m : M A) (k : A -> M B) : M B :=
  fun w => match m w with
           | (Ok a, w') => k a w'
           | (Throw e, w') => (Throw e, w')
           end.
(** [try { m } catch (err) { }] : the handlers only log what they catch. *)
Definition try_catch (m : M unit) : M unit :=
  fun w => match m w with
           | (Ok a, w') => (Ok a, w')
           | (Throw _, w') => (Ok tt, w')
           end.

Declare Scope bridge_scope.
Delimit Scope bridge_scope with bridge.
Notation "x <- m ;; k" := (bind m (fun x => k))
  (at level 100, m at next level, right associativity) : bridge_scope.
Notation "m ;;; k" := (bind m (fun _ => k))
  (at level 100, right associativity) : bridge_scope.
Local Open Scope bridge_scope.

(** A read-only query on the database. *)
Definition query {A} (q : DB -> A) : M A := fun w => (Ok (q (db w)), w).

(** [db.prepare(...).run(...)]. *)
Definition run (s : Stmt) : M unit :=
  fun w => match exec s (db w) with
           | Some d => (Ok tt, emit (EvRun s) (with_db d w))
           | None => (Throw SqliteError, w)
           end.

(** [Date.now()]. *)
Definition Date_now : M Z := fun w => (Ok (now w), w).

(** [await fetch(url)]: the request goes out, time passes, and the
    promise settles. *)
Definition fetch (url : string) : M (bool * option Data) :=
  fun w =>
    let r := net w url in
    let w' := with_now (now w + elapsed r) (emit (EvFetch url) w) in
    match result r with
    | Rejected => (Throw FetchError, w')
    | Response ok body => (Ok (ok, body), w')
    end.

(** [await r.json()]. *)
Definition json_of (body : option Data) : M Data :=
  match body with
  | Some d => ret d
  | None => throw JsonError
  end.

(** [for (const x of xs) { body(x) }]. *)
Fixpoint for_of {A} (xs : list A) (body : A -> M unit) : M unit :=
  match xs with
  | [] => ret tt
  | x :: rest => body x ;;; for_of rest body
  end.

(** [rows.map(f)] for a callback that may raise: the rows are visited in
    order and the first exception ends the traversal. *)
Fixpoint map_M {A B} (f : A -> M B) (xs : list A) : M (list B) :=
  match xs with
  | [] => ret []
  | x :: rest =>
      y <- f x ;;
      ys <- map_M f rest ;;
      ret (y :: ys)
  end.

(** The check the vocabulary constructors make on a URL-valued property:
    anything but a [URL] object is a [TypeError]. *)
Definition expect_URL (r : Ref) : M URL :=
  match r with
  | RefURL u => ret u
  | RefString _ => throw TypeError
  end.

(** [new Note({ id, attributedTo, content, published, sensitive })]. *)
Definition new_Note (id attributedTo : Ref) (content : string)
    (published : Z) (sensitive : bool) : M Note :=
  i <- expect_URL id ;;
  a <- expect_URL attributedTo ;;
  ret (mkNote i a content published sensitive).

(** [new Create({ actor, to, object })]. *)
Definition new_Create (actor : Ref) (to : URL) (object : Note) : M Create :=
  a <- expect_URL actor ;;
  ret (mkCreate a to object).

(* ================================================================== *)
(** ** Runtime and configuration *)

Inductive KeyUse : Type := PublicUse | PrivateUse.

(** What the JavaScript runtime and Fedify provide, with two facts about
    them.  [JSON.stringify] of a JSON value is never the empty text.
    Whether the id of an Accept parses as a URL does not depend on the
    UUID drawn for it: the UUID follows a [/], so it lies in the path,
    query or fragment, where all its characters are accepted. *)
Class Runtime : Type := {
  JSON_stringify : Json -> string;
  JSON_parse : string -> option Json;
  CryptoKey : Type;
  generateCryptoKeyPair : nat -> CryptoKey * CryptoKey;
  exportJwk : CryptoKey -> Json;
  importJwk : Json -> KeyUse -> option CryptoKey;
  randomUUID : nat -> string;
  new_URL : string -> option URL;
  JSON_stringify_nonempty : forall j, JSON_stringify j <> "";
  new_URL_any_uuid :
    forall (domain username : string) (n m : nat),
      new_URL (domain ++ "/users/" ++ username ++ "/accepts/"
               ++ randomUUID n) = None ->
      new_URL (domain ++ "/users/" ++ username ++ "/accepts/"
               ++ randomUUID m) = None
}.

(** [DOMAIN] and [SYNC_TTL], read from the environment at start-up. *)
Record Config : Type := mkConfig { DOMAIN : string; SYNC_TTL : Z }.

Definition user_endpoint : string :=
  "https://lahelu.com/api/user/get-username?username=".
Definition posts_endpoint : string :=
  "https://lahelu.com/api/post/get-user-posts?userId=".

Definition user_url (username : string) : string :=
  user_endpoint ++ username.
Definition posts_url (userId : string) : string :=
  posts_endpoint ++ userId ++ "&isNewest=true&cursor=1".

Section Bridge.
Context {RT : Runtime} (cfg : Config).

(** [new URL(text)], which raises a [TypeError] on invalid input. *)
Definition construct_URL (text : string) : M URL :=
  match new_URL text with
  | Some u => ret u
  | None => throw TypeError
  end.

(* -------------------------------------------------------------- *)
(** *** USER FETCH *)

Definition user_row (u : UserInfo.t) : User.t :=
  User.mk (UserInfo.username u) (UserInfo.userId u)
          (or_empty (UserInfo.description u))
          (or_empty (UserInfo.avatar u))
          (UserInfo.createTime u) 0 0 None None.

Definition ensureUser (username : string) : M (option User.t) :=
  user <- query (selectUser username) ;;
  match user with
  | Some u => ret (Some u)
  | None =>
      r <- fetch (user_url username) ;;
      if negb (fst r) then ret None else
      data <- json_of (snd r) ;;
      match userInfo data with
      | None => ret None
      | Some u =>
          run (InsertUser (user_row u)) ;;;
          query (selectUser username)
      end
  end.

(* -------------------------------------------------------------- *)
(** *** SYNC POSTS *)

Definition post_row (username : string) (p : PostInfo.t) : Post.t :=
  Post.mk (PostInfo.postId p) username (PostInfo.title p)
          (JSON_stringify (match PostInfo.content p with
                           | Some c => if json_truthy c then c else JArray []
                           | None => JArray []
                           end))
          (if PostInfo.isSensitive p then 1 else 0)
          (PostInfo.createTime p).

Definition syncPosts (username : string) : M unit :=
  user <- ensureUser username ;;
  match user with
  | None => ret tt
  | Some user =>
      followed <- query (hasFollowers username) ;;
      if negb followed then ret tt else
      t <- Date_now ;;
      if t - User.lastPostSync user <? SYNC_TTL cfg then ret tt else
      r <- fetch (posts_url (User.userId user)) ;;
      if negb (fst r) then ret tt else
      data <- json_of (snd r) ;;
      for_of (match postInfos data with Some ps => ps | None => [] end)
             (fun p => run (InsertOrReplacePost (post_row username p))) ;;;
      t' <- Date_now ;;
      run (UpdateLastPostSync t' username)
  end.

(* -------------------------------------------------------------- *)
(** *** FEDIFY: key pairs *)

Record KeyPair : Type := mkKeyPair {
  publicKey : CryptoKey;
  privateKey : CryptoKey
}.

Definition identifier_username (i : Identifier) : string :=
  match i with
  | IdentifierObject s => s
  | IdentifierString s => s
  end.

(** [await importJwk(JSON.parse(text), use)]. *)
Definition import_stored (text : option string) (use : KeyUse)
  : M CryptoKey :=
  match text with
  | None => throw TypeError
  | Some s =>
      match JSON_parse s with
      | None => throw JsonError
      | Some j =>
          match importJwk j use with
          | Some k => ret k
          | None => throw ImportError
          end
      end
  end.

(** [await generateCryptoKeyPair()]. *)
Definition generate : M KeyPair :=
  fun w =>
    let kp := generateCryptoKeyPair (entropy w) in
    (Ok (mkKeyPair (fst kp) (snd kp)),
     emit EvKeyGen (with_entropy (S (entropy w)) w)).

Definition keyPairsDispatcher (identifier : Identifier)
  : M (list KeyPair) :=
  let username := identifier_username identifier in
  user <- query (selectUser username) ;;
  match user with
  | None => ret []
  | Some user =>
      if truthy (User.publicKey user) && truthy (User.privateKey user)
      then
        pub <- import_stored (User.publicKey user) PublicUse ;;
        priv <- import_stored (User.privateKey user) PrivateUse ;;
        ret [mkKeyPair pub priv]
      else
        kp <- generate ;;
        let pubJwk := exportJwk (publicKey kp) in
        let privJwk := exportJwk (privateKey kp) in
        run (UpdateKeys (JSON_stringify pubJwk) (JSON_stringify privJwk)
                        username) ;;;
        ret [kp]
  end.

(* -------------------------------------------------------------- *)
(** *** FEDIFY: outbox *)

(** The request context Fedify hands to dispatchers and listeners. *)
Record Context : Type := mkContext {
  parameters_identifier : option string;
  ctx_url : option URL;
  getActorUri : string -> URL;
  sendActivity : string -> URL -> Accept -> bool
}.

Fixpoint insert_desc (p : Post.t) (rows : list Post.t) : list Post.t :=
  match rows with
  | [] => [p]
  | q :: rest =>
      if Post.createdAt q <=? Post.createdAt p
      then p :: q :: rest
      else q :: insert_desc p rest
  end.

(** [ORDER BY createdAt DESC]; rows with equal [createdAt] keep their
    table order. *)
Definition order_by_createdAt_desc (rows : list Post.t) : list Post.t :=
  fold_right insert_desc [] rows.

(** [SELECT * FROM posts WHERE username=? ORDER BY createdAt DESC]. *)
Definition selectPosts (username : string) (d : DB) : list Post.t :=
  order_by_createdAt_desc
    (filter (fun p => String.eqb (Post.username p) username) (posts d)).

Definition public_audience : string :=
  "https://www.w3.org/ns/activitystreams#Public".

(** [`${DOMAIN}/users/${username}/posts/${p.postId}`]. *)
Definition note_id_text (username : string) (p : Post.t) : string :=
  DOMAIN cfg ++ "/users/" ++ username ++ "/posts/" ++ Post.postId p.

(** The callback of [rows.map]: [new Create({ actor, to, object: new
    Note({...}) })].  The properties are evaluated in source order; the
    Note's [id], [attributedTo] and the Create's [actor] are handed over
    as strings. *)
Definition create_of (ctx : Context) (username : string) (p : Post.t)
  : M Create :=
  to <- construct_URL public_audience ;;
  object <- new_Note
              (RefString (note_id_text username p))
              (RefString (href (getActorUri ctx username)))
              (Post.title p)
              (Post.createdAt p)
              (negb (Post.sensitive p =? 0)) ;;
  new_Create (RefString (href (getActorUri ctx username))) to object.

Definition outboxDispatcher (ctx : Context) (identifier : Identifier)
  : M (list Create) :=
  let username := identifier_username identifier in
  followed <- query (hasFollowers username) ;;
  if negb followed then ret [] else
  syncPosts username ;;;
  rows <- query (selectPosts username) ;;
  map_M (create_of ctx username) rows.

(* -------------------------------------------------------------- *)
(** *** FEDIFY: inbox *)

(** [s.split(sep)] for a one-character separator. *)
Fixpoint split (sep : ascii) (s : string) : list string :=
  match s with
  | EmptyString => [EmptyString]
  | String c rest =>
      if Ascii.eqb c sep then EmptyString :: split sep rest
      else match split sep rest with
           | piece :: pieces => String c piece :: pieces
           | [] => [String c EmptyString]
           end
  end.

(** [ctx.parameters?.identifier ||
     (ctx.url ? new URL(ctx.url).pathname.split("/")[2] : null)]. *)
Definition resolve_username (ctx : Context) : option string :=
  if truthy (parameters_identifier ctx) then parameters_identifier ctx
  else match ctx_url ctx with
       | Some u => nth_error (split "/"%char (pathname u)) 2
       | None => None
       end.

(** [crypto.randomUUID()]. *)
Definition crypto_randomUUID : M string :=
  fun w => (Ok (randomUUID (entropy w)), with_entropy (S (entropy w)) w).

(** [await ctx.sendActivity({ identifier }, recipient, activity)].
    Fedify first obtains the sender's key pairs through the registered
    key-pair dispatcher; whether the rest of the delivery resolves is
    [sendActivity ctx]. *)
Definition send (ctx : Context) (identifier : string) (recipient : URL)
                (activity : Accept) : M unit :=
  (fun w => (Ok tt, emit (EvSend identifier recipient activity) w)) ;;;
  keyPairsDispatcher (IdentifierString identifier) ;;;
  if sendActivity ctx identifier recipient activity
  then ret tt
  else throw DeliveryError.

(** [follow.id instanceof URL ? follow.id.href
     : (typeof follow.id === "string" ? follow.id : null)]. *)
Definition followId_of (i : ActivityId) : option string :=
  match i with
  | IdURL u => Some (href u)
  | IdString s => Some s
  | IdOther => None
  end.

Definition onFollow (ctx : Context) (follow : Follow) : M unit :=
  try_catch
    (if negb (truthy (resolve_username ctx)) then ret tt else
     let username := or_empty (resolve_username ctx) in
     match follow_actorId follow with
     | None => ret tt
     | Some actor =>
         let actorId := href actor in
         if String.eqb actorId "" then ret tt else
         run (InsertOrIgnoreFollower username actorId) ;;;
         let followId := followId_of (follow_id follow) in
         if negb (truthy followId) then ret tt else
         let actorUri := getActorUri ctx username in
         uuid <- crypto_randomUUID ;;
         id <- construct_URL (DOMAIN cfg ++ "/users/" ++ username
                              ++ "/accepts/" ++ uuid) ;;
         act <- construct_URL (href actorUri) ;;
         obj <- construct_URL (or_empty followId) ;;
         send ctx username actor (mkAccept id act obj)
     end).

Definition onUndo (ctx : Context) (undo : Undo) : M unit :=
  if negb (truthy (resolve_username ctx)) then ret tt else
  let username := or_empty (resolve_username ctx) in
  match undo_getObject undo with
  | ObjectRejects => throw FetchError
  | ObjectOther => ret tt
  | ObjectFollow _ =>
      match undo_actorId undo with
      | None => ret tt
      | Some actor =>
          let actorId := href actor in
          if String.eqb actorId "" then ret tt else
          run (DeleteFollower username actorId)
      end
  end.

End Bridge.

(* ================================================================== *)
(** ** Vocabulary of the statements below *)

(** *** Reading the trace *)

(** Requests to the platform's post listing. *)
Definition is_post_fetch (e : Event) : bool :=
  match e with
  | EvFetch url => prefix posts_endpoint url
  | _ => false
  end.

Definition post_fetches (tr : list Event) : list Event :=
  filter is_post_fetch tr.

Definition is_send (e : Event) : bool :=
  match e with EvSend _ _ _ => true | _ => false end.

(** *** The paths of [ensureUser] and [syncPosts], written out *)

(** The whole behaviour of [ensureUser], path by path. *)
Definition ensureUser_paths (username : string) (w : World)
  : Outcome (option User.t) * World :=
  match selectUser username (db w) with
  | Some u => (Ok (Some u), w)
  | None =>
      let rp := net w (user_url username) in
      let w1 := with_now (now w + elapsed rp)
                         (emit (EvFetch (user_url username)) w) in
      match result rp with
      | Rejected => (Throw FetchError, w1)
      | Response false _ => (Ok None, w1)
      | Response true None => (Throw JsonError, w1)
      | Response true (Some data) =>
          match userInfo data with
          | None => (Ok None, w1)
          | Some info =>
              match selectUser (UserInfo.username info) (db w) with
              | Some _ => (Throw SqliteError, w1)
              | None =>
                  let d := mkDB (users (db w) ++ [user_row info])
                                (posts (db w)) (followers (db w)) in
                  (Ok (if String.eqb (UserInfo.username info) username
                       then Some (user_row info) else None),
                   emit (EvRun (InsertUser (user_row info))) (with_db d w1))
              end
          end
      end
  end.

(** [data.postInfos || []]. *)
Definition postInfos_or_empty (data : Data) : list PostInfo.t :=
  match postInfos data with Some ps => ps | None => [] end.

(** The [posts] table after the [INSERT OR REPLACE] loop over [ps]. *)
Definition upsert_posts {RT : Runtime} (username : string)
    (ps : list PostInfo.t) (rows : list Post.t) : list Post.t :=
  fold_left
    (fun acc p =>
       filter (fun q => negb (String.eqb (Post.postId q) (PostInfo.postId p)))
              acc ++ [post_row username p])
    ps rows.

(** The world after the [INSERT OR REPLACE] loop over [ps]. *)
Definition upsert_world {RT : Runtime} (username : string)
    (ps : list PostInfo.t) (w : World) : World :=
  mkWorld
    (mkDB (users (db w)) (upsert_posts username ps (posts (db w)))
          (followers (db w)))
    (now w) (net w) (entropy w)
    (trace w
     ++ map (fun p => EvRun (InsertOrReplacePost (post_row username p))) ps).

(** The world after the loop and the closing [UPDATE users SET
    lastPostSync]. *)
Definition sync_commit {RT : Runtime} (username : string)
    (ps : list PostInfo.t) (w : World) : World :=
  let w3 := upsert_world username ps w in
  emit (EvRun (UpdateLastPostSync (now w3) username))
       (with_db
          (mkDB (map (fun u => if String.eqb (User.username u) username
                               then User.set_lastPostSync (now w3) u else u)
                     (users (db w3)))
                (posts (db w3)) (followers (db w3)))
          w3).

(** The whole behaviour of [syncPosts], path by path. *)
Definition syncPosts_paths {RT : Runtime} (cfg : Config) (username : string)
    (w : World) : Outcome unit * World :=
  match ensureUser username w with
  | (Throw e, w1) => (Throw e, w1)
  | (Ok None, w1) => (Ok tt, w1)
  | (Ok (Some user), w1) =>
      if negb (hasFollowers username (db w1)) then (Ok tt, w1)
      else if now w1 - User.lastPostSync user <? SYNC_TTL cfg then (Ok tt, w1)
      else
        let url := posts_url (User.userId user) in
        let rp := net w1 url in
        let w2 := with_now (now w1 + elapsed rp) (emit (EvFetch url) w1) in
        match result rp with
        | Rejected => (Throw FetchError, w2)
        | Response false _ => (Ok tt, w2)
        | Response true None => (Throw JsonError, w2)
        | Response true (Some data) =>
            (Ok tt, sync_commit username (postInfos_or_empty data) w2)
        end
  end.

(** The last element of a listing that carries the given [postId]. *)
Definition last_with (postId : string) (ps : list PostInfo.t)
  : option PostInfo.t :=
  find (fun p => String.eqb (PostInfo.postId p) postId) (rev ps).

(** *** What the key-pair dispatcher expects of the runtime *)

(** [importJwk(JSON.parse(text), use)] as a partial function. *)
Definition deserialize {RT : Runtime} (text : option string) (use : KeyUse)
  : option CryptoKey :=
  match text with
  | Some s =>
      match JSON_parse s with
      | Some j => importJwk j use
      | None => None
      end
  | None => None
  end.

(** The stored text of a key's export is a non-empty string and reads
    back as a key with the same export. *)
Definition reimports {RT : Runtime} (k : CryptoKey) (use : KeyUse) : Prop :=
  JSON_stringify (exportJwk k) <> "" /\
  exists k', deserialize (Some (JSON_stringify (exportJwk k))) use = Some k' /\
             exportJwk k' = exportJwk k.

(** Every generated pair can be stored and read back. *)
Definition keys_reimport {RT : Runtime} : Prop :=
  forall n,
    reimports (fst (generateCryptoKeyPair n)) PublicUse /\
    reimports (snd (generateCryptoKeyPair n)) PrivateUse.

Definition pub_text {RT : Runtime} (n : nat) : string :=
  JSON_stringify (exportJwk (fst (generateCryptoKeyPair n))).

Definition priv_text {RT : Runtime} (n : nat) : string :=
  JSON_stringify (exportJwk (snd (generateCryptoKeyPair n))).

(** *** Outbox order *)


(** *** What an inbox event resolves to *)

(** The (local username, remote actor) pair a Follow event names, when
    both can be resolved. *)
Definition follow_target (ctx : Context) (follow : Follow)
  : option (string * string) :=
  if truthy (resolve_username ctx)
  then match follow_actorId follow with
       | Some actor =>
           if String.eqb (href actor) "" then None
           else Some (or_empty (resolve_username ctx), href actor)
       | None => None
       end
  else None.

(** The database after [INSERT OR IGNORE INTO followers]. *)
Definition record_follow (username actor : string) (d : DB) : DB :=
  if existsb (Follower.is_pair username actor) (followers d)
  then d
  else mkDB (users d) (posts d)
            (followers d ++ [Follower.mk username actor]).

(** The Accept the Follow listener builds when the Follow has a usable
    id and the three URLs parse, [n] being the entropy the UUID is drawn
    from. *)
Definition accept_built {RT : Runtime} (cfg : Config) (ctx : Context)
    (follow : Follow) (username : string) (n : nat) : option Accept :=
  if truthy (followId_of (follow_id follow))
  then
    match new_URL (DOMAIN cfg ++ "/users/" ++ username ++ "/accepts/"
                   ++ randomUUID n),
          new_URL (href (getActorUri ctx username)),
          new_URL (or_empty (followId_of (follow_id follow))) with
    | Some id, Some act, Some obj => Some (mkAccept id act obj)
    | _, _, _ => None
    end
  else None.

(** The world the Follow listener leaves, path by path. *)
Definition onFollow_world {RT : Runtime} (cfg : Config) (ctx : Context)
    (follow : Follow) (w : World) : World :=
  if truthy (resolve_username ctx)
  then
    let username := or_empty (resolve_username ctx) in
    match follow_actorId follow with
    | None => w
    | Some actor =>
        if String.eqb (href actor) "" then w
        else
          let v := emit (EvRun (InsertOrIgnoreFollower username (href actor)))
                        (with_db (record_follow username (href actor) (db w))
                                 w) in
          if truthy (followId_of (follow_id follow))
          then
            let v1 := with_entropy (S (entropy v)) v in
            match accept_built cfg ctx follow username (entropy v) with
            | Some accept =>
                snd (keyPairsDispatcher (IdentifierString username)
                       (emit (EvSend username actor accept) v1))
            | None => v1
            end
          else v
    end
  else w.

(** The database after [DELETE FROM followers WHERE username=? AND
    actor=?]. *)
Definition remove_follow (username actor : string) (d : DB) : DB :=
  mkDB (users d) (posts d)
       (filter (fun f => negb (Follower.is_pair username actor f))
               (followers d)).

(* ================================================================== *)
(** ** Sample runtime, platform and stores for the worked instances *)

Definition sample_stringify (j : Json) : string :=
  match j with
  | JString s => String "k" s
  | JArray _ => "[]"
  | _ => "{}"
  end.

Definition sample_parse (text : string) : option Json :=
  match text with
  | String "k" s => Some (JString s)
  | _ => None
  end.

Definition sample_import (j : Json) (use : KeyUse) : option string :=
  match j with
  | JString s => Some s
  | _ => None
  end.

Definition sample_new_URL (text : string) : option URL :=
  Some (mkURL text "/").

Definition sample_stringify_nonempty (j : Json) : sample_stringify j <> "".
Proof. destruct j; discriminate. Qed.

Definition sample_new_URL_any_uuid (a b : string) :
  sample_new_URL a = None -> sample_new_URL b = None.
Proof. discriminate. Qed.

Definition sample_runtime : Runtime := {|
  JSON_stringify := sample_stringify;
  JSON_parse := sample_parse;
  CryptoKey := string;
  generateCryptoKeyPair :=
    fun n => (String (ascii_of_nat (65 + n)) "-public",
              String (ascii_of_nat (65 + n)) "-private");
  exportJwk := JString;
  importJwk := sample_import;
  randomUUID := fun n => String (ascii_of_nat (97 + n)) "-uuid";
  new_URL := sample_new_URL;
  JSON_stringify_nonempty := sample_stringify_nonempty;
  new_URL_any_uuid := fun _ _ _ _ => sample_new_URL_any_uuid _ _
|}.

Definition sample_cfg : Config := mkConfig "https://bridge.example" 300000.

Definition sample_ctx : Context :=
  mkContext (Some "alice") None
            (fun username =>
               mkURL ("https://bridge.example/users/" ++ username)
                     ("/users/" ++ username))
            (fun _ _ _ => true).

(** A request that reached the shared inbox path of [alice] without route
    parameters. *)
Definition inbox_ctx : Context :=
  mkContext None
            (Some (mkURL "https://bridge.example/users/alice/inbox"
                         "/users/alice/inbox"))
            (getActorUri sample_ctx)
            (fun _ _ _ => true).

Definition alice_info : UserInfo.t :=
  UserInfo.mk "alice" "u-1" (Some "hello") None 1700000000000.

Definition alice_row : User.t := user_row alice_info.

Definition empty_db : DB := mkDB [] [] [].

Definition no_net : string -> Reply := fun _ => mkReply 0 Rejected.

(** A platform that knows [alice] under every spelling of her name. *)
Definition alice_net : string -> Reply :=
  fun url =>
    if prefix user_endpoint url
    then mkReply 40 (Response true (Some (mkData (Some alice_info) None)))
    else mkReply 0 Rejected.

Definition first_post : PostInfo.t :=
  PostInfo.mk "p-1" "first title" None false 100.


(** A platform that lists the given posts for every user id. *)
Definition posts_net (ps : list PostInfo.t) : string -> Reply :=
  fun url =>
    if prefix posts_endpoint url
    then mkReply 25 (Response true (Some (mkData None (Some ps))))
    else mkReply 0 Rejected.


Definition bob : string := "https://remote.example/users/bob".

Definition bob_url : URL := mkURL bob "/users/bob".

Definition fresh_world : World := mkWorld empty_db 1000 alice_net 0 [].

Definition alice_world : World :=
  mkWorld (mkDB [alice_row] [] []) 1040 alice_net 0
          [EvFetch (user_url "alice"); EvRun (InsertUser alice_row)].

(** [alice] is provisioned and followed by [bob]; nothing synced yet. *)
Definition followed_world : World :=
  mkWorld (mkDB [alice_row] [] [Follower.mk "alice" bob])
          1000000 (posts_net [first_post]) 0 [].

(** The same store with no follower row. *)
Definition unfollowed_world : World :=
  mkWorld (mkDB [alice_row] [] []) 1000000 (posts_net [first_post]) 0 [].

(** [followed_world] with the platform unreachable. *)
Definition offline_world : World := with_net no_net followed_world.

(** [alice_world] after the first key-pair dispatch for [alice]. *)
Definition keyed_world : World :=
  snd (keyPairsDispatcher (RT := sample_runtime) (IdentifierString "alice")
                          alice_world).

Definition alice_keyed_row : User.t :=
  User.set_keys (pub_text (RT := sample_runtime) 0)
                (priv_text (RT := sample_runtime) 0) alice_row.

Definition post_at (postId : string) (t : Z) : Post.t :=
  Post.mk postId "alice" ("title of " ++ postId) "[]" 0 t.

(** [alice], followed, synced a moment ago, with three stored posts and
    one post of somebody else; the platform has nothing new. *)
Definition stocked_world : World :=
  mkWorld
    (mkDB [User.set_lastPostSync 999000 alice_row]
          [post_at "a" 100; Post.mk "x" "carol" "other" "[]" 1 250;
           post_at "b" 300; post_at "c" 200]
          [Follower.mk "alice" bob])
    1000000 (posts_net []) 0 [].


Definition follow_by_bob : Follow :=
  mkFollow (Some bob_url)
           (IdURL (mkURL "https://remote.example/activities/1"
                         "/activities/1")).

(** A Follow whose own [id] is missing. *)
Definition follow_without_id : Follow := mkFollow (Some bob_url) IdOther.

(** A Follow whose actor cannot be resolved. *)
Definition follow_without_actor : Follow :=
  mkFollow None (IdString "https://remote.example/activities/2").

Definition undo_by_bob : Undo :=
  mkUndo (Some bob_url) (ObjectFollow follow_by_bob).

(* ================================================================== *)
(** ** The actor dispatcher and the NodeInfo document *)

Section Actor.
Context {RT : Runtime}.

Record CryptographicKey : Type := mkCryptographicKey {
  key_id : URL;
  key_owner : URL;
  key_publicKey : CryptoKey
}.

Record Person : Type := mkPerson {
  person_id : URL;
  preferredUsername : string;
  summary : string;
  inbox : URL;
  outbox : URL;
  person_publicKey : CryptographicKey
}.

(** What the actor dispatcher uses of its context beyond [Context]:
    the inbox and outbox URIs and [ctx.getActorKeyPairs], a computation
    supplied by Fedify. *)
Record ActorContext : Type := mkActorContext {
  actor_base : Context;
  getInboxUri : string -> URL;
  getOutboxUri : string -> URL;
  getActorKeyPairs : string -> M (list KeyPair)
}.

(** [new Person({ id, preferredUsername, summary, inbox, outbox,
    publicKey })]. *)
Definition new_Person (id : Ref) (preferredUsername summary : string)
    (inbox outbox : URL) (publicKey : CryptographicKey) : M Person :=
  i <- expect_URL id ;;
  ret (mkPerson i preferredUsername summary inbox outbox publicKey).

(** The callback of [setActorDispatcher].  The properties of the
    [Person] are evaluated in source order before the constructor runs:
    the key id is parsed, then [keyPairs[0].publicKey] is read, which
    raises a [TypeError] on an empty list.  The Person's [id] is handed
    over as the string [ctx.getActorUri(username).toString()]. *)
Definition actorDispatcher (ctx : ActorContext) (identifier : Identifier)
  : M (option Person) :=
  let username := identifier_username identifier in
  user <- ensureUser username ;;
  match user with
  | None => ret None
  | Some user =>
      keyPairs <- getActorKeyPairs ctx username ;;
      let actorUri := getActorUri (actor_base ctx) username in
      keyId <- construct_URL (href actorUri ++ "#main-key") ;;
      match keyPairs with
      | [] => throw TypeError
      | kp :: _ =>
          person <- new_Person
                      (RefString (href actorUri))
                      username
                      (or_empty (Some (User.description user)))
                      (getInboxUri ctx username)
                      (getOutboxUri ctx username)
                      (mkCryptographicKey keyId actorUri (publicKey kp)) ;;
          ret (Some person)
      end
  end.

End Actor.

(** [GET /nodeinfo/2.0]. *)
Record NodeInfo : Type := mkNodeInfo {
  nodeinfo_version : string;
  software_name : string;
  software_version : string;
  protocols : list string;
  usage_users_total : Z;
  openRegistrations : bool
}.

Definition nodeinfo (d : DB) : NodeInfo :=
  mkNodeInfo "2.0" "lahelu-bridge" "2.0.0" ["activitypub"]
             (Z.of_nat (length (users d))) false.

(* ================================================================== *)
(** ** Vocabulary for the store-wide statements *)

(** [reach d d']: [d'] is obtained from [d] by running write statements
    of the bridge, each of which succeeds. *)
Inductive reach : DB -> DB -> Prop :=
| reach_refl (d : DB) : reach d d
| reach_step (s : Stmt) (d d' d'' : DB) :
    exec s d = Some d' -> reach d' d'' -> reach d d''.

Definition follower_key (f : Follower.t) : string * string :=
  (Follower.username f, Follower.actor f).

(** The primary keys of the schema hold: one row per username, per
    postId, and per (username, actor) pair. *)
Definition keys_unique (d : DB) : Prop :=
  NoDup (map User.username (users d)) /\
  NoDup (map Post.postId (posts d)) /\
  NoDup (map follower_key (followers d)).

(** The profile columns of a row, which only [INSERT INTO users] sets. *)
Definition profile (u : User.t) : string * string * string * Z :=
  (User.userId u, User.description u, User.avatar u, User.createdAt u).

(** A row with its two key columns blanked: everything the key-pair
    dispatcher's [UPDATE] leaves alone. *)
Definition sans_keys (u : User.t) : User.t :=
  User.mk (User.username u) (User.userId u) (User.description u)
          (User.avatar u) (User.createdAt u) (User.lastPostSync u)
          (User.lastCommentSync u) None None.

(** A row is stored under [name] with the given profile. *)
Definition has_profile (name : string) (pr : string * string * string * Z)
    (d : DB) : Prop :=
  exists u, selectUser name d = Some u /\ profile u = pr.

(** [s.includes(c)] for one character. *)
Fixpoint contains (c : ascii) (s : string) : bool :=
  match s with
  | EmptyString => false
  | String a rest => Ascii.eqb a c || contains c rest
  end.

(** A request context with no route parameter on the given path. *)
Definition path_ctx (path : string) : Context :=
  mkContext None (Some (mkURL ("https://bridge.example" ++ path) path))
            (getActorUri sample_ctx) (fun _ _ _ => true).

(** An Undo of something that is not a Follow. *)
Definition undo_of_other : Undo := mkUndo (Some bob_url) ObjectOther.

(** An Undo of a Follow whose own actor is missing. *)
Definition undo_without_actor : Undo :=
  mkUndo None (ObjectFollow follow_by_bob).

(** A context whose delivery always fails. *)
Definition failing_ctx : Context :=
  mkContext (Some "alice") None (getActorUri sample_ctx)
            (fun _ _ _ => false).

(** The platform's answer carries no user: the request is rejected, the
    status is not a success, the body cannot be read, or it has no
    [userInfo]. *)
Definition no_user_payload (r : FetchResult) : Prop :=
  match r with
  | Rejected => True
  | Response false _ => True
  | Response true None => True
  | Response true (Some data) => userInfo data = None
  end.

(** A platform that answers every request with status 404. *)
Definition not_found_net : string -> Reply :=
  fun _ => mkReply 30 (Response false None).

Definition not_found_world : World :=
  mkWorld empty_db 1000 not_found_net 0 [].

(** [followed_world] with a platform whose listing has no [postInfos]. *)
Definition quiet_world : World :=
  with_net (fun _ => mkReply 25 (Response true (Some (mkData None None))))
           followed_world.

Definition carol : string := "https://remote.example/users/carol".

(** [alice] is followed by [bob] and by [carol]. *)
Definition twice_followed_world : World :=
  mkWorld (mkDB [alice_row] []
                [Follower.mk "alice" bob; Follower.mk "alice" carol])
          1000000 (posts_net [first_post]) 0 [].

(** The behaviour of the actor dispatcher, path by path. *)
Definition actorDispatcher_paths {RT : Runtime} (ctx : ActorContext)
    (identifier : Identifier) (w : World) : Outcome (option Person) * World :=
  let username := identifier_username identifier in
  match ensureUser username w with
  | (Throw e, w0) => (Throw e, w0)
  | (Ok None, w0) => (Ok None, w0)
  | (Ok (Some user), w0) =>
      match getActorKeyPairs ctx username w0 with
      | (Throw e, w1) => (Throw e, w1)
      | (Ok keyPairs, w1) => (Throw TypeError, w1)
      end
  end.

(** [ctx.getActorKeyPairs] runs the key-pair dispatcher registered with
    [setKeyPairsDispatcher]. *)
Definition runs_registered_dispatcher {RT : Runtime} (ctx : ActorContext)
  : Prop :=
  forall name w,
    getActorKeyPairs ctx name w
    = keyPairsDispatcher (IdentifierString name) w.

Definition sample_actor_ctx : ActorContext :=
  mkActorContext (RT := sample_runtime) sample_ctx
    (fun username =>
       mkURL ("https://bridge.example/users/" ++ username ++ "/inbox")
             ("/users/" ++ username ++ "/inbox"))
    (fun username =>
       mkURL ("https://bridge.example/users/" ++ username ++ "/outbox")
             ("/users/" ++ username ++ "/outbox"))
    (fun name => keyPairsDispatcher (RT := sample_runtime)
                                    (IdentifierString name)).

(** [alice] is followed and due for a sync; the store holds a post
    ["p-1"] under [carol]'s name, and the platform lists ["p-1"] for
    [alice]. *)
Definition contested_world : World :=
  mkWorld (mkDB [alice_row] [Post.mk "p-1" "carol" "old" "[]" 0 50]
                [Follower.mk "alice" bob])
          1000000 (posts_net [first_post]) 0 [].

Arguments user_url : simpl never.
Arguments posts_url : simpl never.

(* ================================================================== *)
(** ** Generic facts: lists, strings, tables *)

Lemma find_app_l {A} (f : A -> bool) (l l' : list A) :
  find f (l ++ l') = match find f l with
                     | Some x => Some x
                     | None => find f l'
                     end.
Proof.
  induction l as [|a l IH]; simpl; [reflexivity|].
  destruct (f a); [reflexivity | exact IH].
Qed.

Lemma find_some_holds {A} (f : A -> bool) (l : list A) (x : A) :
  find f l = Some x -> f x = true.
Proof. intros H. apply find_some in H. tauto. Qed.

Lemma filter_filter_negb {A} (f : A -> bool) (l : list A) :
  filter f (filter (fun x => negb (f x)) l) = [].
Proof.
  induction l as [|a l IH]; simpl; [reflexivity|].
  destruct (f a) eqn:E; simpl; [exact IH|].
  rewrite E. exact IH.
Qed.

Lemma existsb_filter_nonempty {A} (f : A -> bool) (l : list A) :
  existsb f l = true -> filter f l <> [].
Proof.
  induction l as [|a l IH]; simpl; [discriminate|].
  destruct (f a); simpl; [discriminate | exact IH].
Qed.

Lemma existsb_false_filter {A} (f : A -> bool) (l : list A) :
  existsb f l = false -> filter f l = [].
Proof.
  induction l as [|a l IH]; simpl; [reflexivity|].
  destruct (f a); simpl; [discriminate | exact IH].
Qed.

Lemma prefix_append (s t : string) : prefix s (s ++ t) = true.
Proof.
  induction s as [|c s IH]; simpl.
  - destruct t; reflexivity.
  - destruct (ascii_dec c c) as [_|N]; [exact IH | contradiction].
Qed.

Lemma selectUser_username username d u :
  selectUser username d = Some u -> User.username u = username.
Proof.
  unfold selectUser. intros H. apply find_some_holds in H.
  now apply String.eqb_eq.
Qed.

(** An [UPDATE users SET ... WHERE username=?] that keeps the key column
    rewrites the selected row in place. *)
Lemma find_update_users (g : User.t -> User.t) username name (l : list User.t) :
  (forall u, User.username (g u) = User.username u) ->
  find (fun u => String.eqb (User.username u) name)
       (map (fun u => if String.eqb (User.username u) username
                      then g u else u) l)
  = match find (fun u => String.eqb (User.username u) name) l with
    | Some u => Some (if String.eqb (User.username u) username
                      then g u else u)
    | None => None
    end.
Proof.
  intros Hg. induction l as [|a l IH]; simpl; [reflexivity|].
  destruct (String.eqb (User.username a) username) eqn:Ea.
  - rewrite Hg. destruct (String.eqb (User.username a) name);
      [rewrite Ea; reflexivity | exact IH].
  - destruct (String.eqb (User.username a) name);
      [rewrite Ea; reflexivity | exact IH].
Qed.

Lemma is_post_fetch_posts_url userId :
  is_post_fetch (EvFetch (posts_url userId)) = true.
Proof. unfold is_post_fetch, posts_url. apply prefix_append. Qed.

Lemma is_post_fetch_user_url username :
  is_post_fetch (EvFetch (user_url username)) = false.
Proof. reflexivity. Qed.

Lemma post_fetches_app tr tr' :
  post_fetches (tr ++ tr') = post_fetches tr ++ post_fetches tr'.
Proof. apply filter_app. Qed.

(* ================================================================== *)
(** ** [ensureUser] *)

Ltac unfold_m :=
  unfold json_of, run, query, fetch, Date_now, try_catch, bind, ret, throw.

Lemma ensureUser_unfold username w :
  ensureUser username w = ensureUser_paths username w.
Proof.
  unfold ensureUser, ensureUser_paths. unfold_m.
  destruct (selectUser username (db w)) eqn:Hsel; [reflexivity|].
  destruct (result (net w (user_url username))) as [|ok body]; [reflexivity|].
  destruct ok; simpl; [|reflexivity].
  destruct body as [data|]; [|reflexivity].
  destruct (userInfo data) as [info|]; [|reflexivity].
  unfold exec. simpl.
  destruct (selectUser (UserInfo.username info) (db w)); [reflexivity|].
  simpl. f_equal. f_equal.
  unfold selectUser in *. simpl. rewrite find_app_l, Hsel. simpl.
  reflexivity.
Qed.

Lemma ensureUser_hit username w u :
  selectUser username (db w) = Some u ->
  ensureUser username w = (Ok (Some u), w).
Proof.
  intros H. rewrite ensureUser_unfold. unfold ensureUser_paths.
  now rewrite H.
Qed.

(** Whatever [ensureUser] returns is the row now stored under the
    requested name. *)
Lemma ensureUser_returns_selected username w u w1 :
  ensureUser username w = (Ok (Some u), w1) ->
  selectUser username (db w1) = Some u.
Proof.
  rewrite ensureUser_unfold. unfold ensureUser_paths.
  destruct (selectUser username (db w)) eqn:Hsel.
  - intros H; inversion H; subst. exact Hsel.
  - destruct (result (net w (user_url username))) as [|[|] [data|]];
      try discriminate.
    destruct (userInfo data) as [info|]; try discriminate.
    destruct (selectUser (UserInfo.username info) (db w)); try discriminate.
    destruct (String.eqb (UserInfo.username info) username) eqn:E;
      try discriminate.
    intros H; inversion H; subst; clear H.
    unfold selectUser in *. simpl. rewrite find_app_l, Hsel. simpl.
    now rewrite E.
Qed.

(** [ensureUser] never touches [posts] or [followers]. *)
Lemma ensureUser_other_tables username w :
  posts (db (snd (ensureUser username w))) = posts (db w) /\
  followers (db (snd (ensureUser username w))) = followers (db w).
Proof.
  rewrite ensureUser_unfold. unfold ensureUser_paths.
  destruct (selectUser username (db w)); [split; reflexivity|].
  destruct (result (net w (user_url username))) as [|[|] [data|]];
    try (split; reflexivity).
  destruct (userInfo data) as [info|]; try (split; reflexivity).
  destruct (selectUser (UserInfo.username info) (db w));
    split; reflexivity.
Qed.

(** [ensureUser] never asks the platform for posts. *)
Lemma ensureUser_post_fetches username w :
  post_fetches (trace (snd (ensureUser username w))) = post_fetches (trace w).
Proof.
  rewrite ensureUser_unfold. unfold ensureUser_paths.
  destruct (selectUser username (db w)); [reflexivity|].
  assert (E : post_fetches (trace w ++ [EvFetch (user_url username)])
              = post_fetches (trace w)).
  { rewrite post_fetches_app. simpl. apply app_nil_r. }
  destruct (result (net w (user_url username))) as [|[|] [data|]];
    try exact E.
  destruct (userInfo data) as [info|]; try exact E.
  destruct (selectUser (UserInfo.username info) (db w)); try exact E.
  simpl. rewrite post_fetches_app. simpl. rewrite app_nil_r. exact E.
Qed.

(* ------------------------------------------------------------------ *)
(** *** Idempotent provisioning *)

(** C2.  [ensureUser] is idempotent.  If a row is stored under the
    requested username, the call returns that row and leaves the world as
    it was: no request, no statement, no change of any table.  When a
    call returns a row, an immediately following call with the same
    username returns the same row and again changes nothing; and when the
    first call had to provision the row, the two calls together add to
    the trace exactly one platform request and one [INSERT] (of the
    returned row). *)
Theorem ensureUser_idempotent :
  forall (username : string) (w : World),
    (forall u, selectUser username (db w) = Some u ->
               ensureUser username w = (Ok (Some u), w)) /\
    (forall u w1,
        ensureUser username w = (Ok (Some u), w1) ->
        ensureUser username w1 = (Ok (Some u), w1) /\
        (selectUser username (db w) = None ->
         trace (snd (ensureUser username w1))
         = trace w ++ [EvFetch (user_url username); EvRun (InsertUser u)])).
Proof.
  intros username w. split.
  - intros u H. now apply ensureUser_hit.
  - intros u w1 H.
    pose proof (ensureUser_returns_selected _ _ _ _ H) as Hsel1.
    rewrite (ensureUser_hit _ _ _ Hsel1). split; [reflexivity|].
    intros Hnone. simpl.
    rewrite ensureUser_unfold in H. unfold ensureUser_paths in H.
    rewrite Hnone in H.
    destruct (result (net w (user_url username))) as [|[|] [data|]];
      try discriminate.
    destruct (userInfo data) as [info|]; try discriminate.
    destruct (selectUser (UserInfo.username info) (db w)); try discriminate.
    destruct (String.eqb (UserInfo.username info) username);
      try discriminate.
    inversion H; subst; clear H. simpl.
    rewrite <- app_assoc. reflexivity.
Qed.

Lemma ensureUser_idempotent_witness :
  ensureUser "alice" alice_world = (Ok (Some alice_row), alice_world) /\
  (ensureUser "alice" alice_world = (Ok (Some alice_row), alice_world) /\
   (selectUser "alice" (db fresh_world) = None ->
    trace (snd (ensureUser "alice" alice_world))
    = trace fresh_world
      ++ [EvFetch (user_url "alice"); EvRun (InsertUser alice_row)])).
Proof.
  split.
  - apply (proj1 (ensureUser_idempotent "alice" alice_world) alice_row).
    reflexivity.
  - apply (proj2 (ensureUser_idempotent "alice" fresh_world)
                 alice_row alice_world).
    reflexivity.
Defined.

(* ------------------------------------------------------------------ *)
(** *** The row is stored under the payload's name *)

(** Where the new row goes.  Any row [ensureUser] returns carries the
    requested username.  When no row is stored under the requested name
    and the lookup yields a payload, then: if no row is stored under the
    payload's username either, a row built from the payload is appended
    under the payload's username, and the call returns that row when the
    two names agree and no user when they differ; if a row is already
    stored under the payload's username (the names then differ), the
    [INSERT] raises a constraint error, no table changes, and
    [ensureUser] raises instead of returning. *)
Lemma ensureUser_payload_username (username : string) (w : World) :
  (forall u w', ensureUser username w = (Ok (Some u), w') ->
                User.username u = username) /\
  (forall data info,
      selectUser username (db w) = None ->
      result (net w (user_url username)) = Response true (Some data) ->
      userInfo data = Some info ->
      (selectUser (UserInfo.username info) (db w) = None ->
       fst (ensureUser username w)
       = Ok (if String.eqb (UserInfo.username info) username
             then Some (user_row info) else None) /\
       users (db (snd (ensureUser username w)))
       = users (db w) ++ [user_row info] /\
       selectUser (UserInfo.username info) (db (snd (ensureUser username w)))
       = Some (user_row info)) /\
      (forall existing,
          selectUser (UserInfo.username info) (db w) = Some existing ->
          UserInfo.username info <> username /\
          fst (ensureUser username w) = Throw SqliteError /\
          db (snd (ensureUser username w)) = db w)).
Proof.
  split.
  - intros u w' H. apply ensureUser_returns_selected in H.
    eapply selectUser_username; eauto.
  - intros data info Hnone Hnet Hinfo.
    rewrite ensureUser_unfold. unfold ensureUser_paths.
    rewrite Hnone, Hnet, Hinfo. split.
    + intros Hfree. rewrite Hfree. simpl.
      repeat split; try reflexivity.
      unfold selectUser in *. simpl. rewrite find_app_l, Hfree. simpl.
      now rewrite String.eqb_refl.
    + intros existing Hex. rewrite Hex. simpl.
      repeat split; try reflexivity.
      intros E. rewrite E, Hnone in Hex. discriminate.
Qed.

(** C10.  The same request made twice for a name the platform spells
    differently.  On an empty [users] table, with the platform answering
    the lookup of ["Alice"] with the payload of [alice]: the first call
    stores the row under ["alice"] and returns no user; the second call
    finds no row under ["Alice"], asks the platform again, and its plain
    [INSERT] of ["alice"] violates the primary key, so [ensureUser]
    raises instead of returning no user, leaving the tables as they
    were. *)
Theorem ensureUser_respelled_twice :
  let w1 := snd (ensureUser "Alice" fresh_world) in
  result (net fresh_world (user_url "Alice"))
  = Response true (Some (mkData (Some alice_info) None)) /\
  fst (ensureUser "Alice" fresh_world) = Ok None /\
  users (db w1) = [alice_row] /\
  selectUser "Alice" (db w1) = None /\
  fst (ensureUser "Alice" w1) = Throw SqliteError /\
  db (snd (ensureUser "Alice" w1)) = db w1.
Proof. cbv zeta. repeat split; reflexivity. Qed.

(* ================================================================== *)
(** ** [syncPosts] *)

Lemma world_eta w :
  mkWorld (mkDB (users (db w)) (posts (db w)) (followers (db w)))
          (now w) (net w) (entropy w) (trace w) = w.
Proof. destruct w as [[? ? ?] ? ? ? ?]. reflexivity. Qed.

Lemma for_of_upsert `{Runtime} username ps w :
  for_of ps (fun p => run (InsertOrReplacePost (post_row username p))) w
  = (Ok tt, upsert_world username ps w).
Proof.
  revert w. induction ps as [|p ps IH]; intros w.
  - simpl. unfold ret, upsert_world. simpl.
    rewrite app_nil_r. now rewrite world_eta.
  - simpl. unfold bind at 1. unfold run at 1. simpl.
    rewrite IH. unfold upsert_world, emit, with_db. simpl.
    now rewrite <- app_assoc.
Qed.

Lemma syncPosts_unfold `{Runtime} cfg username w :
  syncPosts cfg username w = syncPosts_paths cfg username w.
Proof.
  unfold syncPosts, syncPosts_paths. unfold bind at 1.
  destruct (ensureUser username w) as [[[u|]|e] w1]; try reflexivity.
  unfold bind at 1. unfold query at 1.
  destruct (hasFollowers username (db w1)); simpl; [|reflexivity].
  unfold bind at 1. unfold Date_now at 1.
  destruct (now w1 - User.lastPostSync u <? SYNC_TTL cfg); [reflexivity|].
  unfold bind at 1. unfold fetch at 1.
  destruct (result (net w1 (posts_url (User.userId u)))) as [|[|] [data|]];
    try reflexivity.
  simpl. unfold bind at 1. unfold json_of, ret at 1.
  unfold bind at 1. rewrite for_of_upsert.
  unfold bind, Date_now, run. simpl. reflexivity.
Qed.

Lemma post_fetches_upserts `{Runtime} username ps :
  post_fetches
    (map (fun p => EvRun (InsertOrReplacePost (post_row username p))) ps) = [].
Proof. induction ps; simpl; auto. Qed.

Lemma sync_commit_post_fetches `{Runtime} username ps w :
  post_fetches (trace (sync_commit username ps w)) = post_fetches (trace w).
Proof.
  unfold sync_commit, upsert_world. simpl.
  rewrite !post_fetches_app, post_fetches_upserts. simpl.
  now rewrite !app_nil_r.
Qed.

Lemma sync_commit_selectUser `{Runtime} username ps w u :
  selectUser username (db w) = Some u ->
  selectUser username (db (sync_commit username ps w))
  = Some (User.set_lastPostSync (now w) u).
Proof.
  intros Hsel. unfold sync_commit, upsert_world, selectUser in *. simpl.
  rewrite find_update_users by reflexivity. rewrite Hsel.
  apply find_some_holds in Hsel. now rewrite Hsel.
Qed.

Lemma sync_commit_followers `{Runtime} username ps w :
  followers (db (sync_commit username ps w)) = followers (db w).
Proof. reflexivity. Qed.

Lemma hasFollowers_followers username d d' :
  followers d' = followers d ->
  hasFollowers username d' = hasFollowers username d.
Proof. unfold hasFollowers, countFollowers. now intros ->. Qed.

(* ------------------------------------------------------------------ *)
(** *** Gating *)

(** The requests for posts that one call of [syncPosts] adds. *)
Lemma syncPosts_post_fetches `{Runtime} cfg username w :
  post_fetches (trace (snd (syncPosts cfg username w)))
  = post_fetches (trace w)
    ++ match ensureUser username w with
       | (Ok (Some u), w1) =>
           if hasFollowers username (db w)
              && (SYNC_TTL cfg <=? now w1 - User.lastPostSync u)
           then [EvFetch (posts_url (User.userId u))]
           else []
       | _ => []
       end.
Proof.
  rewrite syncPosts_unfold. unfold syncPosts_paths.
  pose proof (ensureUser_post_fetches username w) as Htr.
  pose proof (ensureUser_other_tables username w) as [_ Hfol].
  destruct (ensureUser username w) as [[[u|]|e] w1]; simpl in *;
    try (rewrite app_nil_r; exact Htr).
  rewrite (hasFollowers_followers username _ _ Hfol).
  destruct (hasFollowers username (db w)); simpl;
    [|rewrite app_nil_r; exact Htr].
  rewrite Z.ltb_antisym.
  destruct (SYNC_TTL cfg <=? now w1 - User.lastPostSync u); simpl;
    [|rewrite app_nil_r; exact Htr].
  assert (E : post_fetches (trace w1 ++ [EvFetch (posts_url (User.userId u))])
              = post_fetches (trace w)
                ++ [EvFetch (posts_url (User.userId u))]).
  { rewrite post_fetches_app, Htr. f_equal.
    unfold post_fetches. cbn [filter].
    now rewrite is_post_fetch_posts_url. }
  destruct (result (net w1 (posts_url (User.userId u)))) as [|[|] [data|]];
    try exact E.
  cbn [snd]. rewrite sync_commit_post_fetches. exact E.
Qed.

(** C1.  One call of [syncPosts] adds a request for the user's posts to
    the trace exactly when the three gates pass (ensureUser returns a
    row, the user has a follower, and the clock is at least [SYNC_TTL]
    past the row's [lastPostSync]) and then it adds exactly one, for that
    user's id.  With no follower no request for posts is made whatever
    the clock says, and if the user row is already stored the call does
    nothing at all.  After a call that passed the gates and fetched
    successfully, the row's [lastPostSync] is the clock reading at which
    that call finished; a later call (the clock and the network being
    whatever they then are) asks for posts not at all while less than
    [SYNC_TTL] has passed since that reading, and exactly once
    otherwise. *)
Theorem syncPosts_gating :
  forall (RT : Runtime) (cfg : Config) (username : string) (w : World),
    post_fetches (trace (snd (syncPosts cfg username w)))
    = post_fetches (trace w)
      ++ match ensureUser username w with
         | (Ok (Some u), w1) =>
             if hasFollowers username (db w)
                && (SYNC_TTL cfg <=? now w1 - User.lastPostSync u)
             then [EvFetch (posts_url (User.userId u))]
             else []
         | _ => []
         end
    /\
    (hasFollowers username (db w) = false ->
     post_fetches (trace (snd (syncPosts cfg username w)))
     = post_fetches (trace w) /\
     (forall u, selectUser username (db w) = Some u ->
                syncPosts cfg username w = (Ok tt, w)))
    /\
    (forall u w0 data,
        ensureUser username w = (Ok (Some u), w0) ->
        hasFollowers username (db w) = true ->
        SYNC_TTL cfg <= now w0 - User.lastPostSync u ->
        result (net w0 (posts_url (User.userId u)))
        = Response true (Some data) ->
        let w1 := snd (syncPosts cfg username w) in
        fst (syncPosts cfg username w) = Ok tt /\
        selectUser username (db w1)
        = Some (User.set_lastPostSync (now w1) u) /\
        forall (t : Z) (n : string -> Reply),
          let w2 := with_net n (with_now t w1) in
          (t - now w1 < SYNC_TTL cfg ->
           post_fetches (trace (snd (syncPosts cfg username w2)))
           = post_fetches (trace w2)) /\
          (SYNC_TTL cfg <= t - now w1 ->
           post_fetches (trace (snd (syncPosts cfg username w2)))
           = post_fetches (trace w2)
             ++ [EvFetch (posts_url (User.userId u))])).
Proof.
  intros RT cfg username w. split; [apply syncPosts_post_fetches|]. split.
  - intros Hnof. split.
    + rewrite syncPosts_post_fetches, Hnof.
      destruct (ensureUser username w) as [[[u|]|e] w1]; simpl;
        apply app_nil_r.
    + intros u Hsel. rewrite syncPosts_unfold. unfold syncPosts_paths.
      rewrite (ensureUser_hit _ _ _ Hsel), Hnof. reflexivity.
  - intros u w0 data Hens Hfol Httl Hnet w1.
    pose proof (ensureUser_returns_selected _ _ _ _ Hens) as Hsel.
    assert (Hfol0 : hasFollowers username (db w0) = true).
    { rewrite <- Hfol. apply hasFollowers_followers.
      pose proof (ensureUser_other_tables username w) as [_ E].
      now rewrite Hens in E. }
    assert (Hw1 : syncPosts cfg username w
                  = (Ok tt,
                     sync_commit username (postInfos_or_empty data)
                       (with_now
                          (now w0
                           + elapsed (net w0 (posts_url (User.userId u))))
                          (emit (EvFetch (posts_url (User.userId u))) w0)))).
    { rewrite syncPosts_unfold. unfold syncPosts_paths.
      rewrite Hens, Hfol0. simpl.
      destruct (Z.ltb_spec (now w0 - User.lastPostSync u) (SYNC_TTL cfg));
        [lia|].
      now rewrite Hnet. }
    subst w1. rewrite Hw1. simpl fst. simpl snd.
    set (w1 := sync_commit _ _ _).
    assert (Hsel1 : selectUser username (db w1)
                    = Some (User.set_lastPostSync (now w1) u)).
    { unfold w1. rewrite (sync_commit_selectUser username _ _ u);
        [reflexivity | exact Hsel]. }
    split; [reflexivity|]. split; [exact Hsel1|].
    intros t n w2.
    assert (Hhit : ensureUser username w2
                   = (Ok (Some (User.set_lastPostSync (now w1) u)), w2)).
    { apply ensureUser_hit. exact Hsel1. }
    assert (Hfol2 : hasFollowers username (db w2) = true).
    { rewrite <- Hfol0. apply hasFollowers_followers. reflexivity. }
    split; intros Ht; rewrite syncPosts_post_fetches, Hhit, Hfol2;
      change (now w2) with t;
      change (User.lastPostSync (User.set_lastPostSync (now w1) u))
        with (now w1);
      change (User.userId (User.set_lastPostSync (now w1) u))
        with (User.userId u);
      rewrite andb_true_l.
    + destruct (Z.leb_spec (SYNC_TTL cfg) (t - now w1)); [lia|].
      apply app_nil_r.
    + destruct (Z.leb_spec (SYNC_TTL cfg) (t - now w1)); [|lia].
      reflexivity.
Qed.

Lemma syncPosts_gating_witness :
  (post_fetches
     (trace (snd (syncPosts (RT := sample_runtime) sample_cfg "alice"
                            unfollowed_world)))
   = post_fetches (trace unfollowed_world) /\
   (forall u, selectUser "alice" (db unfollowed_world) = Some u ->
              syncPosts (RT := sample_runtime) sample_cfg "alice"
                        unfollowed_world
              = (Ok tt, unfollowed_world)))
  /\
  (let w1 := snd (syncPosts (RT := sample_runtime) sample_cfg "alice"
                            followed_world) in
   fst (syncPosts (RT := sample_runtime) sample_cfg "alice" followed_world)
   = Ok tt /\
   selectUser "alice" (db w1)
   = Some (User.set_lastPostSync (now w1) alice_row) /\
   forall (t : Z) (n : string -> Reply),
     let w2 := with_net n (with_now t w1) in
     (t - now w1 < SYNC_TTL sample_cfg ->
      post_fetches
        (trace (snd (syncPosts (RT := sample_runtime) sample_cfg "alice" w2)))
      = post_fetches (trace w2)) /\
     (SYNC_TTL sample_cfg <= t - now w1 ->
      post_fetches
        (trace (snd (syncPosts (RT := sample_runtime) sample_cfg "alice" w2)))
      = post_fetches (trace w2)
        ++ [EvFetch (posts_url (User.userId alice_row))])).
Proof.
  split.
  - apply (proj1 (proj2 (syncPosts_gating sample_runtime sample_cfg
                                          "alice" unfollowed_world))).
    reflexivity.
  - apply (proj2 (proj2 (syncPosts_gating sample_runtime sample_cfg
                                          "alice" followed_world))
                 alice_row followed_world
                 (mkData None (Some [first_post]))).
    + reflexivity.
    + reflexivity.
    + vm_compute. discriminate.
    + reflexivity.
Defined.

(* ------------------------------------------------------------------ *)
(** *** Failed fetches *)

(** C9 as stated does not hold: when the request for posts is rejected
    (the platform is unreachable), [syncPosts] does not return; the
    rejection escapes as an exception. *)
Lemma syncPosts_fetch_failure_counterexample :
  ~ (forall (RT : Runtime) (cfg : Config) (username : string) (w : World)
            (u : User.t),
        selectUser username (db w) = Some u ->
        hasFollowers username (db w) = true ->
        SYNC_TTL cfg <= now w - User.lastPostSync u ->
        (result (net w (posts_url (User.userId u))) = Rejected \/
         exists body, result (net w (posts_url (User.userId u)))
                      = Response false body) ->
        fst (syncPosts cfg username w) = Ok tt /\
        db (snd (syncPosts cfg username w)) = db w).
Proof.
  intros H.
  destruct (H sample_runtime sample_cfg "alice" offline_world alice_row)
    as [Hret _].
  - reflexivity.
  - reflexivity.
  - vm_compute. discriminate.
  - left. reflexivity.
  - vm_compute in Hret. discriminate.
Qed.

(** A call that gets as far as asking for posts. *)
Lemma syncPosts_at_fetch `{Runtime} cfg username w u w0 :
  ensureUser username w = (Ok (Some u), w0) ->
  hasFollowers username (db w) = true ->
  SYNC_TTL cfg <= now w0 - User.lastPostSync u ->
  syncPosts cfg username w
  = let url := posts_url (User.userId u) in
    let w2 := with_now (now w0 + elapsed (net w0 url))
                       (emit (EvFetch url) w0) in
    match result (net w0 url) with
    | Rejected => (Throw FetchError, w2)
    | Response false _ => (Ok tt, w2)
    | Response true None => (Throw JsonError, w2)
    | Response true (Some data) =>
        (Ok tt, sync_commit username (postInfos_or_empty data) w2)
    end.
Proof.
  intros Hens Hfol Httl.
  rewrite syncPosts_unfold. unfold syncPosts_paths. rewrite Hens.
  replace (hasFollowers username (db w0)) with true.
  - simpl.
    destruct (Z.ltb_spec (now w0 - User.lastPostSync u) (SYNC_TTL cfg));
      [lia | reflexivity].
  - rewrite <- Hfol. symmetry. apply hasFollowers_followers.
    pose proof (ensureUser_other_tables username w) as [_ E].
    now rewrite Hens in E.
Qed.

(** C9, amended.  [lastPostSync] is written only by a call whose request
    for posts came back with a success status and a readable body; every
    other call leaves all tables as [ensureUser] left them.  For a call
    that passes the gates: on a non-success status [syncPosts] returns
    normally; when the request is rejected, or the body cannot be read,
    the exception escapes from [syncPosts]; in all three cases no table
    changes, so a later call with the TTL elapsed asks for the posts
    again.  On success [syncPosts] returns and the row's [lastPostSync]
    is the clock reading at which the call finished. *)
Theorem syncPosts_failed_fetch :
  forall (RT : Runtime) (cfg : Config) (username : string) (w : World),
    (db (snd (syncPosts cfg username w)) = db (snd (ensureUser username w)) \/
     exists u w0 data,
       ensureUser username w = (Ok (Some u), w0) /\
       result (net w0 (posts_url (User.userId u)))
       = Response true (Some data) /\
       fst (syncPosts cfg username w) = Ok tt)
    /\
    (forall u w0,
        ensureUser username w = (Ok (Some u), w0) ->
        hasFollowers username (db w) = true ->
        SYNC_TTL cfg <= now w0 - User.lastPostSync u ->
        let rp := net w0 (posts_url (User.userId u)) in
        let w1 := snd (syncPosts cfg username w) in
        (forall body, result rp = Response false body ->
                      fst (syncPosts cfg username w) = Ok tt /\
                      db w1 = db w0) /\
        (result rp = Rejected ->
         fst (syncPosts cfg username w) = Throw FetchError /\
         db w1 = db w0) /\
        (result rp = Response true None ->
         fst (syncPosts cfg username w) = Throw JsonError /\
         db w1 = db w0) /\
        (db w1 = db w0 ->
         forall (t : Z) (n : string -> Reply),
           SYNC_TTL cfg <= t - User.lastPostSync u ->
           let w2 := with_net n (with_now t w1) in
           post_fetches (trace (snd (syncPosts cfg username w2)))
           = post_fetches (trace w2)
             ++ [EvFetch (posts_url (User.userId u))]) /\
        (forall data, result rp = Response true (Some data) ->
                      fst (syncPosts cfg username w) = Ok tt /\
                      selectUser username (db w1)
                      = Some (User.set_lastPostSync (now w1) u))).
Proof.
  intros RT cfg username w. split.
  - rewrite syncPosts_unfold. unfold syncPosts_paths.
    destruct (ensureUser username w) as [[[u|]|e] w1] eqn:Hens;
      try (left; reflexivity).
    destruct (hasFollowers username (db w1)); simpl;
      [|left; reflexivity].
    destruct (now w1 - User.lastPostSync u <? SYNC_TTL cfg);
      [left; reflexivity|].
    destruct (result (net w1 (posts_url (User.userId u))))
      as [|[|] [data|]] eqn:Hres; try (left; reflexivity).
    right. exists u, w1, data. repeat split; auto.
  - intros u w0 Hens Hfol Httl rp w1. subst w1.
    rewrite (syncPosts_at_fetch cfg username w u w0 Hens Hfol Httl).
    subst rp. cbv zeta.
    pose proof (ensureUser_returns_selected _ _ _ _ Hens) as Hsel.
    split; [intros body Hb; rewrite Hb; split; reflexivity|].
    split; [intros Hb; rewrite Hb; split; reflexivity|].
    split; [intros Hb; rewrite Hb; split; reflexivity|].
    split.
    + intros Hdb t n Hlate.
      match goal with
      | |- context [with_net n ?x] => set (w2 := with_net n x)
      end.
      assert (Hsel2 : selectUser username (db w2) = Some u).
      { unfold w2. simpl. rewrite Hdb. exact Hsel. }
      assert (Hfol2 : hasFollowers username (db w2) = true).
      { rewrite <- Hfol. unfold w2. simpl. rewrite Hdb.
        apply hasFollowers_followers.
        pose proof (ensureUser_other_tables username w) as [_ E].
        now rewrite Hens in E. }
      rewrite syncPosts_post_fetches, (ensureUser_hit _ _ _ Hsel2), Hfol2.
      change (now w2) with t. rewrite andb_true_l.
      destruct (Z.leb_spec (SYNC_TTL cfg) (t - User.lastPostSync u));
        [reflexivity | lia].
    + intros data Hd. rewrite Hd. split; [reflexivity|]. cbn [snd].
      rewrite (sync_commit_selectUser username _ _ u); [reflexivity|].
      exact Hsel.
Qed.

Lemma syncPosts_failed_fetch_witness :
  let rp := net offline_world (posts_url (User.userId alice_row)) in
  let w1 := snd (syncPosts (RT := sample_runtime) sample_cfg "alice"
                           offline_world) in
  (forall body, result rp = Response false body ->
                fst (syncPosts (RT := sample_runtime) sample_cfg "alice"
                               offline_world) = Ok tt /\
                db w1 = db offline_world) /\
  (result rp = Rejected ->
   fst (syncPosts (RT := sample_runtime) sample_cfg "alice" offline_world)
   = Throw FetchError /\
   db w1 = db offline_world) /\
  (result rp = Response true None ->
   fst (syncPosts (RT := sample_runtime) sample_cfg "alice" offline_world)
   = Throw JsonError /\
   db w1 = db offline_world) /\
  (db w1 = db offline_world ->
   forall (t : Z) (n : string -> Reply),
     SYNC_TTL sample_cfg <= t - User.lastPostSync alice_row ->
     let w2 := with_net n (with_now t w1) in
     post_fetches (trace (snd (syncPosts (RT := sample_runtime) sample_cfg
                                         "alice" w2)))
     = post_fetches (trace w2)
       ++ [EvFetch (posts_url (User.userId alice_row))]) /\
  (forall data, result rp = Response true (Some data) ->
                fst (syncPosts (RT := sample_runtime) sample_cfg "alice"
                               offline_world) = Ok tt /\
                selectUser "alice" (db w1)
                = Some (User.set_lastPostSync (now w1) alice_row)).
Proof.
  apply (proj2 (syncPosts_failed_fetch sample_runtime sample_cfg "alice"
                                       offline_world)
               alice_row offline_world).
  - reflexivity.
  - reflexivity.
  - vm_compute. discriminate.
Defined.

(* ------------------------------------------------------------------ *)
(** *** Upserts *)

Lemma filter_id_replace (postId : string) (row : Post.t) (rows : list Post.t) :
  filter (fun q => String.eqb (Post.postId q) postId)
         (filter (fun q => negb (String.eqb (Post.postId q) (Post.postId row)))
                 rows ++ [row])
  = if String.eqb (Post.postId row) postId then [row]
    else filter (fun q => String.eqb (Post.postId q) postId) rows.
Proof.
  rewrite filter_app. simpl.
  destruct (String.eqb_spec (Post.postId row) postId) as [E|N].
  - subst postId. now rewrite filter_filter_negb.
  - rewrite app_nil_r. induction rows as [|q rows IH]; simpl; [reflexivity|].
    destruct (String.eqb_spec (Post.postId q) (Post.postId row)) as [E|N'];
      simpl.
    + destruct (String.eqb_spec (Post.postId q) postId); [congruence|].
      exact IH.
    + destruct (String.eqb (Post.postId q) postId); [f_equal|]; exact IH.
Qed.

(** After the loop, a [postId] that the listing mentions has exactly one
    row, built from its last mention; any other [postId] keeps its rows. *)
Lemma upsert_posts_rows `{Runtime} username postId ps rows :
  filter (fun q => String.eqb (Post.postId q) postId)
         (upsert_posts username ps rows)
  = match last_with postId ps with
    | Some p => [post_row username p]
    | None => filter (fun q => String.eqb (Post.postId q) postId) rows
    end.
Proof.
  unfold upsert_posts, last_with. revert rows.
  induction ps as [|p ps IH]; intros rows; simpl; [reflexivity|].
  rewrite IH, find_app_l.
  destruct (find _ (rev ps)); [reflexivity|]. simpl.
  change (PostInfo.postId p) with (Post.postId (post_row username p)).
  rewrite filter_id_replace. simpl.
  destruct (String.eqb (PostInfo.postId p) postId); reflexivity.
Qed.

Lemma sync_commit_postRows `{Runtime} username postId ps w :
  postRows postId (db (sync_commit username ps w))
  = match last_with postId ps with
    | Some p => [post_row username p]
    | None => postRows postId (db w)
    end.
Proof. unfold postRows. simpl. apply upsert_posts_rows. Qed.




(* ================================================================== *)
(** ** The key-pair dispatcher *)

Lemma truthy_some s : s <> "" -> truthy (Some s) = true.
Proof.
  intros N. unfold truthy.
  destruct (String.eqb_spec s ""); [contradiction | reflexivity].
Qed.

Lemma import_stored_deserialize `{Runtime} text use w :
  import_stored text use w
  = match deserialize text use with
    | Some k => (Ok k, w)
    | None => (Throw (match text with
                      | None => TypeError
                      | Some s => match JSON_parse s with
                                  | None => JsonError
                                  | Some _ => ImportError
                                  end
                      end), w)
    end.
Proof.
  unfold import_stored, deserialize.
  destruct text as [s|]; [|reflexivity].
  destruct (JSON_parse s) as [j|]; [|reflexivity].
  destruct (importJwk j use); reflexivity.
Qed.

(** With both exports stored, the dispatcher only reads. *)
Lemma keyPairsDispatcher_stored `{Runtime} identifier w u :
  selectUser (identifier_username identifier) (db w) = Some u ->
  truthy (User.publicKey u) && truthy (User.privateKey u) = true ->
  keyPairsDispatcher identifier w
  = (match deserialize (User.publicKey u) PublicUse,
           deserialize (User.privateKey u) PrivateUse with
     | Some pk, Some sk => Ok [mkKeyPair pk sk]
     | Some _, None =>
         Throw (match User.privateKey u with
                | None => TypeError
                | Some s => match JSON_parse s with
                            | None => JsonError
                            | Some _ => ImportError
                            end
                end)
     | None, _ =>
         Throw (match User.publicKey u with
                | None => TypeError
                | Some s => match JSON_parse s with
                            | None => JsonError
                            | Some _ => ImportError
                            end
                end)
     end, w).
Proof.
  intros Hsel Hkeys. unfold keyPairsDispatcher.
  unfold bind at 1. unfold query at 1. rewrite Hsel, Hkeys.
  unfold bind. rewrite import_stored_deserialize.
  destruct (deserialize (User.publicKey u) PublicUse); [|reflexivity].
  rewrite import_stored_deserialize.
  destruct (deserialize (User.privateKey u) PrivateUse); reflexivity.
Qed.

(** Without both exports stored, the dispatcher generates and persists. *)
Lemma keyPairsDispatcher_fresh_eq `{Runtime} identifier w u :
  let username := identifier_username identifier in
  selectUser username (db w) = Some u ->
  truthy (User.publicKey u) && truthy (User.privateKey u) = false ->
  let n := entropy w in
  keyPairsDispatcher identifier w
  = (Ok [mkKeyPair (fst (generateCryptoKeyPair n))
                   (snd (generateCryptoKeyPair n))],
     emit (EvRun (UpdateKeys (pub_text n) (priv_text n) username))
          (with_db
             (mkDB (map (fun u => if String.eqb (User.username u) username
                                  then User.set_keys (pub_text n)
                                                     (priv_text n) u
                                  else u)
                        (users (db w)))
                   (posts (db w)) (followers (db w)))
             (emit EvKeyGen (with_entropy (S n) w)))).
Proof.
  intros username Hsel Hkeys n.
  unfold keyPairsDispatcher. fold username.
  unfold bind at 1. unfold query at 1. rewrite Hsel, Hkeys.
  reflexivity.
Qed.

Lemma keyPairsDispatcher_fresh `{Runtime} identifier w u :
  let username := identifier_username identifier in
  selectUser username (db w) = Some u ->
  truthy (User.publicKey u) && truthy (User.privateKey u) = false ->
  let n := entropy w in
  let w1 := snd (keyPairsDispatcher identifier w) in
  fst (keyPairsDispatcher identifier w)
  = Ok [mkKeyPair (fst (generateCryptoKeyPair n))
                  (snd (generateCryptoKeyPair n))] /\
  trace w1 = trace w ++ [EvKeyGen;
                         EvRun (UpdateKeys (pub_text n) (priv_text n)
                                           username)] /\
  selectUser username (db w1)
  = Some (User.set_keys (pub_text n) (priv_text n) u) /\
  entropy w1 = S n.
Proof.
  intros username Hsel Hkeys n w1. subst w1.
  rewrite (keyPairsDispatcher_fresh_eq identifier w u Hsel Hkeys).
  fold username. fold n. cbn [fst snd].
  split; [reflexivity|]. split; [simpl; now rewrite <- app_assoc|].
  split; [|reflexivity].
  unfold selectUser in *. cbn [db emit with_db users].
  rewrite find_update_users by reflexivity.
  rewrite Hsel. apply find_some_holds in Hsel. now rewrite Hsel.
Qed.

(** C3.  The key-pair dispatcher generates at most once per username.
    For an unknown user it returns no pair and changes nothing.  For a
    user whose row carries both exports it generates nothing and writes
    nothing (the world, trace included, is unchanged) and returns the
    pair obtained by parsing and importing the two stored texts, so
    repeating the call repeats the answer.  For a user without both
    exports it generates one pair, stores the JSON text of both JWK
    exports on the row and returns that pair; provided generated keys can
    be stored and read back, the next invocation returns a pair with the
    same public and private exports, generates nothing and writes
    nothing. *)
Theorem keyPairsDispatcher_once :
  forall (RT : Runtime) (identifier : Identifier) (w : World),
    let username := identifier_username identifier in
    (selectUser username (db w) = None ->
     keyPairsDispatcher identifier w = (Ok [], w))
    /\
    (forall u,
        selectUser username (db w) = Some u ->
        truthy (User.publicKey u) && truthy (User.privateKey u) = true ->
        snd (keyPairsDispatcher identifier w) = w /\
        keyPairsDispatcher identifier (snd (keyPairsDispatcher identifier w))
        = keyPairsDispatcher identifier w /\
        forall pk sk,
          deserialize (User.publicKey u) PublicUse = Some pk ->
          deserialize (User.privateKey u) PrivateUse = Some sk ->
          fst (keyPairsDispatcher identifier w) = Ok [mkKeyPair pk sk])
    /\
    (forall u,
        selectUser username (db w) = Some u ->
        truthy (User.publicKey u) && truthy (User.privateKey u) = false ->
        let n := entropy w in
        let w1 := snd (keyPairsDispatcher identifier w) in
        let kp1 := mkKeyPair (fst (generateCryptoKeyPair n))
                             (snd (generateCryptoKeyPair n)) in
        fst (keyPairsDispatcher identifier w) = Ok [kp1] /\
        trace w1 = trace w ++ [EvKeyGen;
                               EvRun (UpdateKeys (pub_text n) (priv_text n)
                                                 username)] /\
        selectUser username (db w1)
        = Some (User.set_keys (pub_text n) (priv_text n) u) /\
        (keys_reimport ->
         exists kp2,
           keyPairsDispatcher identifier w1 = (Ok [kp2], w1) /\
           exportJwk (publicKey kp2) = exportJwk (publicKey kp1) /\
           exportJwk (privateKey kp2) = exportJwk (privateKey kp1))).
Proof.
  intros RT identifier w username. split; [|split].
  - intros Hnone. unfold keyPairsDispatcher. fold username.
    unfold bind, query. now rewrite Hnone.
  - intros u Hsel Hkeys.
    rewrite (keyPairsDispatcher_stored identifier w u Hsel Hkeys).
    cbn [fst snd].
    rewrite (keyPairsDispatcher_stored identifier w u Hsel Hkeys).
    split; [reflexivity|]. split; [reflexivity|].
    intros pk sk Hpk Hsk. now rewrite Hpk, Hsk.
  - intros u Hsel Hkeys n w1 kp1.
    destruct (keyPairsDispatcher_fresh identifier w u Hsel Hkeys)
      as (Hres & Htrace & Hsel1 & _).
    fold username in Htrace, Hsel1. fold n in Hres, Htrace, Hsel1.
    fold w1 in Htrace, Hsel1.
    split; [exact Hres|]. split; [exact Htrace|]. split; [exact Hsel1|].
    intros Hlaw. destruct (Hlaw n) as [[Hne1 (pk & Hpk & Epk)]
                                        [Hne2 (sk & Hsk & Esk)]].
    exists (mkKeyPair pk sk).
    rewrite (keyPairsDispatcher_stored identifier w1 _ Hsel1).
    + cbn [User.publicKey User.privateKey User.set_keys].
      unfold pub_text, priv_text. rewrite Hpk, Hsk.
      repeat split; assumption.
    + cbn [User.publicKey User.privateKey User.set_keys].
      unfold pub_text, priv_text.
      now rewrite (truthy_some _ Hne1), (truthy_some _ Hne2).
Qed.

Lemma keyPairsDispatcher_once_witness :
  keyPairsDispatcher (RT := sample_runtime) (IdentifierObject "nobody")
                     alice_world = (Ok [], alice_world)
  /\
  (snd (keyPairsDispatcher (RT := sample_runtime) (IdentifierString "alice")
                           keyed_world) = keyed_world /\
   fst (keyPairsDispatcher (RT := sample_runtime) (IdentifierString "alice")
                           keyed_world)
   = Ok [mkKeyPair (RT := sample_runtime) "A-public" "A-private"])
  /\
  (fst (keyPairsDispatcher (RT := sample_runtime) (IdentifierString "alice")
                           alice_world)
   = Ok [mkKeyPair (RT := sample_runtime) "A-public" "A-private"] /\
   exists kp2,
     keyPairsDispatcher (RT := sample_runtime) (IdentifierString "alice")
                        keyed_world = (Ok [kp2], keyed_world) /\
     exportJwk (publicKey kp2) = JString "A-public" /\
     exportJwk (privateKey kp2) = JString "A-private").
Proof.
  split; [|split].
  - apply (proj1 (keyPairsDispatcher_once sample_runtime
                    (IdentifierObject "nobody") alice_world)).
    reflexivity.
  - destruct (proj1 (proj2 (keyPairsDispatcher_once sample_runtime
                              (IdentifierString "alice") keyed_world))
                    alice_keyed_row eq_refl eq_refl) as (Hw & _ & Hres).
    split; [exact Hw|].
    apply (Hres "A-public" "A-private"); reflexivity.
  - destruct (proj2 (proj2 (keyPairsDispatcher_once sample_runtime
                              (IdentifierString "alice") alice_world))
                    alice_row eq_refl eq_refl) as (Hres & _ & _ & Hnext).
    split; [exact Hres|].
    apply Hnext. intros n. split.
    + split; [discriminate|]. eexists. split; reflexivity.
    + split; [discriminate|]. eexists. split; reflexivity.
Defined.

(* ================================================================== *)
(** ** The outbox dispatcher *)

Lemma insert_desc_perm p rows : Permutation (insert_desc p rows) (p :: rows).
Proof.
  induction rows as [|q rows IH]; simpl; [reflexivity|].
  destruct (Post.createdAt q <=? Post.createdAt p); [reflexivity|].
  rewrite IH. apply perm_swap.
Qed.

Lemma order_by_createdAt_desc_perm rows :
  Permutation (order_by_createdAt_desc rows) rows.
Proof.
  induction rows as [|p rows IH]; simpl; [reflexivity|].
  rewrite insert_desc_perm. now constructor.
Qed.



(** Every row makes the callback of [rows.map] raise: the Note's [id] is
    handed over as a string. *)
Lemma create_of_raises `{Runtime} cfg ctx username p w :
  create_of cfg ctx username p w = (Throw TypeError, w).
Proof.
  unfold create_of, bind, construct_URL, new_Note, expect_URL, throw, ret.
  destruct (new_URL public_audience); reflexivity.
Qed.

Lemma map_M_create_of `{Runtime} cfg ctx username rows w :
  map_M (create_of cfg ctx username) rows w
  = (match rows with [] => Ok [] | _ :: _ => Throw TypeError end, w).
Proof.
  destruct rows as [|p rows]; [reflexivity|].
  simpl. unfold bind at 1. now rewrite create_of_raises.
Qed.

Lemma outboxDispatcher_sync `{Runtime} cfg ctx identifier w :
  outboxDispatcher cfg ctx identifier w
  = let username := identifier_username identifier in
    if hasFollowers username (db w)
    then
      match syncPosts cfg username w with
      | (Ok _, w1) =>
          map_M (create_of cfg ctx username) (selectPosts username (db w1)) w1
      | (Throw e, w1) => (Throw e, w1)
      end
    else (Ok [], w).
Proof.
  unfold outboxDispatcher. cbv zeta.
  unfold bind at 1. unfold query at 1.
  destruct (hasFollowers (identifier_username identifier) (db w));
    [|reflexivity].
  cbn [negb]. unfold bind at 1.
  destruct (syncPosts cfg (identifier_username identifier) w)
    as [[[]|e] w1]; reflexivity.
Qed.

Lemma outboxDispatcher_unfold `{Runtime} cfg ctx identifier w :
  outboxDispatcher cfg ctx identifier w
  = let username := identifier_username identifier in
    if hasFollowers username (db w)
    then
      (match fst (syncPosts cfg username w) with
       | Ok _ =>
           match selectPosts username
                   (db (snd (syncPosts cfg username w))) with
           | [] => Ok []
           | _ :: _ => Throw TypeError
           end
       | Throw e => Throw e
       end,
       snd (syncPosts cfg username w))
    else (Ok [], w).
Proof.
  rewrite outboxDispatcher_sync. cbv zeta.
  destruct (hasFollowers (identifier_username identifier) (db w));
    [|reflexivity].
  destruct (syncPosts cfg (identifier_username identifier) w)
    as [[[]|e] w1]; cbn [fst snd]; [|reflexivity].
  apply map_M_create_of.
Qed.




(* ================================================================== *)
(** ** The inbox listeners *)

Lemma followerRows_hasFollowers username actor d :
  followerRows username actor d <> [] -> hasFollowers username d = true.
Proof.
  unfold followerRows, hasFollowers, countFollowers. intros Hrows.
  destruct (filter (Follower.is_pair username actor) (followers d))
    as [|f rest] eqn:E; [contradiction|].
  assert (Hin : In f (filter (Follower.is_pair username actor) (followers d)))
    by (rewrite E; now left).
  apply filter_In in Hin. destruct Hin as [Hin Hpair].
  unfold Follower.is_pair in Hpair. apply andb_prop in Hpair.
  destruct Hpair as [Hname _].
  assert (Hin' : In f (filter
                         (fun f => String.eqb (Follower.username f) username)
                         (followers d)))
    by (apply filter_In; split; assumption).
  revert Hin'.
  generalize (filter (fun f => String.eqb (Follower.username f) username)
                     (followers d)).
  intros l Hl. destruct l; [contradiction|].
  simpl. apply Z.ltb_lt. lia.
Qed.

Lemma record_follow_rows username actor d :
  followerRows username actor (record_follow username actor d) <> [].
Proof.
  unfold record_follow, followerRows.
  destruct (existsb _ (followers d)) eqn:E.
  - now apply existsb_filter_nonempty.
  - simpl. rewrite filter_app. simpl.
    unfold Follower.is_pair at 2. simpl. rewrite !String.eqb_refl. simpl.
    intros Habs. apply app_eq_nil in Habs. destruct Habs. discriminate.
Qed.

Lemma record_follow_idempotent username actor d :
  record_follow username actor (record_follow username actor d)
  = record_follow username actor d.
Proof.
  pose proof (record_follow_rows username actor d) as Hrows.
  unfold record_follow at 1.
  destruct (existsb _ (followers (record_follow username actor d))) eqn:E;
    [reflexivity|].
  apply existsb_false_filter in E. contradiction.
Qed.

Lemma remove_follow_rows username actor d :
  followerRows username actor (remove_follow username actor d) = [].
Proof. unfold followerRows, remove_follow. simpl. apply filter_filter_negb. Qed.

Lemma remove_follow_idempotent username actor d :
  remove_follow username actor (remove_follow username actor d)
  = remove_follow username actor d.
Proof.
  unfold remove_follow. simpl. f_equal.
  induction (followers d) as [|f l IH]; simpl; [reflexivity|].
  destruct (Follower.is_pair username actor f) eqn:E; simpl; [exact IH|].
  rewrite E. simpl. now f_equal.
Qed.

(** The key-pair dispatcher never touches [posts] or [followers]. *)
Lemma keyPairsDispatcher_frame `{Runtime} identifier w :
  posts (db (snd (keyPairsDispatcher identifier w))) = posts (db w) /\
  followers (db (snd (keyPairsDispatcher identifier w))) = followers (db w).
Proof.
  destruct (selectUser (identifier_username identifier) (db w))
    as [u|] eqn:Hsel.
  - destruct (truthy (User.publicKey u) && truthy (User.privateKey u))
      eqn:Hkeys.
    + rewrite (keyPairsDispatcher_stored identifier w u Hsel Hkeys).
      split; reflexivity.
    + rewrite (keyPairsDispatcher_fresh_eq identifier w u Hsel Hkeys).
      split; reflexivity.
  - unfold keyPairsDispatcher, bind, query. rewrite Hsel.
    split; reflexivity.
Qed.

(** Once the dispatcher has run, running it again on the same [users]
    table writes nothing: the row is absent, or it carries both exports,
    which are non-empty texts. *)
Lemma keyPairsDispatcher_settled `{Runtime} identifier w v :
  users (db v) = users (db (snd (keyPairsDispatcher identifier w))) ->
  db (snd (keyPairsDispatcher identifier v)) = db v.
Proof.
  intros Husers.
  assert (Hsame : forall name,
             selectUser name (db v)
             = selectUser name (db (snd (keyPairsDispatcher identifier w))))
    by (intros name; unfold selectUser; now rewrite Husers).
  destruct (selectUser (identifier_username identifier) (db w))
    as [u|] eqn:Hsel.
  - destruct (truthy (User.publicKey u) && truthy (User.privateKey u))
      eqn:Hkeys.
    + rewrite (keyPairsDispatcher_stored identifier w u Hsel Hkeys) in Hsame.
      cbn [snd] in Hsame.
      rewrite (keyPairsDispatcher_stored identifier v u); [reflexivity| |].
      * rewrite Hsame. exact Hsel.
      * exact Hkeys.
    + destruct (keyPairsDispatcher_fresh identifier w u Hsel Hkeys)
        as (_ & _ & Hsel1 & _).
      rewrite <- Hsame in Hsel1.
      rewrite (keyPairsDispatcher_stored identifier v _ Hsel1);
        [reflexivity|].
      cbn [User.publicKey User.privateKey User.set_keys].
      unfold pub_text, priv_text.
      now rewrite !truthy_some by apply JSON_stringify_nonempty.
  - assert (Hnone : selectUser (identifier_username identifier) (db v)
                    = None).
    { rewrite Hsame. unfold keyPairsDispatcher, bind, query.
      rewrite Hsel. exact Hsel. }
    unfold keyPairsDispatcher, bind, query. now rewrite Hnone.
Qed.

(** The Follow listener always returns normally, in the world
    [onFollow_world] describes. *)
Lemma onFollow_unfold `{Runtime} cfg ctx follow w :
  onFollow cfg ctx follow w = (Ok tt, onFollow_world cfg ctx follow w).
Proof.
  unfold onFollow, onFollow_world, try_catch. cbv zeta.
  destruct (truthy (resolve_username ctx)); cbn [negb]; [|reflexivity].
  destruct (follow_actorId follow) as [actor|]; [|reflexivity].
  destruct (String.eqb (href actor) ""); [reflexivity|].
  unfold bind at 1. unfold run at 1. unfold exec.
  fold (record_follow (or_empty (resolve_username ctx)) (href actor) (db w)).
  assert (E : (if existsb (Follower.is_pair (or_empty (resolve_username ctx))
                                            (href actor)) (followers (db w))
               then Some (db w)
               else Some (mkDB (users (db w)) (posts (db w))
                               (followers (db w)
                                ++ [Follower.mk
                                      (or_empty (resolve_username ctx))
                                      (href actor)])))
              = Some (record_follow (or_empty (resolve_username ctx))
                                    (href actor) (db w))).
  { unfold record_follow. destruct (existsb _ _); reflexivity. }
  rewrite E. clear E.
  unfold accept_built.
  destruct (truthy (followId_of (follow_id follow))); cbn [negb];
    [|reflexivity].
  unfold bind at 1. unfold crypto_randomUUID at 1.
  cbn [entropy emit with_db with_entropy].
  unfold bind at 1. unfold construct_URL at 1.
  destruct (new_URL (DOMAIN cfg ++ _)) as [id|]; [|reflexivity].
  unfold ret at 1.
  unfold bind at 1. unfold construct_URL at 1.
  destruct (new_URL (href _)) as [act|]; [|reflexivity].
  unfold ret at 1.
  unfold bind at 1. unfold construct_URL at 1.
  destruct (new_URL (or_empty _)) as [obj|]; [|reflexivity].
  unfold ret at 1.
  unfold send. unfold bind at 1. unfold bind at 1.
  match goal with
  | |- context [keyPairsDispatcher ?i ?v] =>
      destruct (keyPairsDispatcher i v) as [[kps|e] w2]
  end; [|reflexivity].
  destruct (sendActivity ctx _ actor _); reflexivity.
Qed.

Lemma record_follow_fixed username actor d :
  existsb (Follower.is_pair username actor) (followers d) = true ->
  record_follow username actor d = d.
Proof. unfold record_follow. now intros ->. Qed.

Lemma record_follow_has_pair username actor d :
  existsb (Follower.is_pair username actor)
          (followers (record_follow username actor d)) = true.
Proof.
  destruct (existsb _ (followers (record_follow username actor d))) eqn:E;
    [reflexivity|].
  apply existsb_false_filter in E.
  now apply record_follow_rows in E.
Qed.

(** The tables the Follow listener leaves: [posts] and [followers] are
    those of the [INSERT OR IGNORE] for the resolved pair. *)
Lemma onFollow_effect `{Runtime} cfg ctx follow w :
  fst (onFollow cfg ctx follow w) = Ok tt /\
  let d := match follow_target ctx follow with
           | Some (username, actor) => record_follow username actor (db w)
           | None => db w
           end in
  posts (db (snd (onFollow cfg ctx follow w))) = posts d /\
  followers (db (snd (onFollow cfg ctx follow w))) = followers d.
Proof.
  rewrite onFollow_unfold. cbn [fst snd]. split; [reflexivity|].
  unfold onFollow_world, follow_target. cbv zeta.
  destruct (truthy (resolve_username ctx)); [|split; reflexivity].
  destruct (follow_actorId follow) as [actor|]; [|split; reflexivity].
  destruct (String.eqb (href actor) ""); [split; reflexivity|].
  destruct (truthy (followId_of (follow_id follow))); [|split; reflexivity].
  destruct (accept_built cfg ctx follow _ _) as [accept|];
    [|split; reflexivity].
  match goal with
  | |- context [keyPairsDispatcher ?i ?v] =>
      destruct (keyPairsDispatcher_frame i v) as [Hp Hf]
  end.
  rewrite Hp, Hf. split; reflexivity.
Qed.

Lemma accept_built_none_any `{Runtime} cfg ctx follow username n m :
  accept_built cfg ctx follow username n = None ->
  accept_built cfg ctx follow username m = None.
Proof.
  unfold accept_built.
  destruct (truthy (followId_of (follow_id follow))); [|reflexivity].
  set (text := fun k => (DOMAIN cfg ++ "/users/" ++ username ++ "/accepts/"
                         ++ randomUUID k)%string).
  change (match new_URL (text n),
                new_URL (href (getActorUri ctx username)),
                new_URL (or_empty (followId_of (follow_id follow))) with
          | Some id, Some act, Some obj => Some (mkAccept id act obj)
          | _, _, _ => None
          end = None ->
          match new_URL (text m),
                new_URL (href (getActorUri ctx username)),
                new_URL (or_empty (followId_of (follow_id follow))) with
          | Some id, Some act, Some obj => Some (mkAccept id act obj)
          | _, _, _ => None
          end = None).
  assert (L : new_URL (text n) = None -> new_URL (text m) = None)
    by apply new_URL_any_uuid.
  destruct (new_URL (text n)) as [id|].
  - destruct (new_URL (href (getActorUri ctx username))) as [act|].
    + destruct (new_URL (or_empty (followId_of (follow_id follow))));
        [discriminate|].
      intros _. destruct (new_URL (text m)); reflexivity.
    + intros _. destruct (new_URL (text m)); reflexivity.
  - intros _. now rewrite L.
Qed.

(** A Follow delivered again changes no table. *)
Lemma onFollow_again `{Runtime} cfg ctx follow w :
  db (snd (onFollow cfg ctx follow (snd (onFollow cfg ctx follow w))))
  = db (snd (onFollow cfg ctx follow w)).
Proof.
  rewrite !onFollow_unfold. cbn [snd].
  assert (Hstep : forall v,
             onFollow_world cfg ctx follow w = v ->
             db (onFollow_world cfg ctx follow v) = db v).
  2:{ now apply Hstep. }
  intros v. unfold onFollow_world. cbv zeta.
  destruct (truthy (resolve_username ctx)); [|reflexivity].
  destruct (follow_actorId follow) as [actor|]; [|reflexivity].
  destruct (String.eqb (href actor) "") eqn:Hhref; [reflexivity|].
  set (username := or_empty (resolve_username ctx)).
  set (a := href actor).
  assert (Hfixed : forall d,
             followers d = followers (record_follow username a (db w)) ->
             record_follow username a d = d).
  { intros d Hd. apply record_follow_fixed. rewrite Hd.
    apply record_follow_has_pair. }
  destruct (truthy (followId_of (follow_id follow))) eqn:Hid.
  2:{ intros <-. cbn [db emit with_db]. apply Hfixed. reflexivity. }
  cbn [entropy emit with_db].
  destruct (accept_built cfg ctx follow username (entropy w))
    as [accept|] eqn:Hbuilt.
  - intros Hv.
    assert (Hf1 : followers (db v)
                  = followers (record_follow username a (db w))).
    { rewrite <- Hv. now rewrite (proj2 (keyPairsDispatcher_frame _ _)). }
    cbn [db emit with_db with_entropy entropy].
    rewrite (Hfixed (db v) Hf1).
    destruct (accept_built cfg ctx follow username (entropy v))
      as [accept'|]; [|reflexivity].
    rewrite keyPairsDispatcher_settled
      with (w := emit (EvSend username actor accept)
                   (with_entropy (S (entropy w))
                      (emit (EvRun (InsertOrIgnoreFollower username a))
                            (with_db (record_follow username a (db w)) w)))).
    + cbn [db emit with_db with_entropy]. destruct v; reflexivity.
    + rewrite Hv. cbn [db emit with_db with_entropy].
      destruct v; reflexivity.
  - intros <-. cbn [db entropy emit with_db with_entropy].
    rewrite (accept_built_none_any cfg ctx follow username _ (S (entropy w))
               Hbuilt).
    cbn [db with_entropy emit with_db]. apply Hfixed. reflexivity.
Qed.

Lemma truthy_resolved ctx username :
  resolve_username ctx = Some username -> username <> "" ->
  truthy (resolve_username ctx) = true /\
  or_empty (resolve_username ctx) = username.
Proof.
  intros -> Hne. split; [now apply truthy_some | reflexivity].
Qed.

(** C7.  A Follow whose actor cannot be resolved ([actorId] missing, or
    with an empty [href]) makes the listener return at once: the world is
    exactly as before, so no follower row is written, no identifier is
    drawn for an Accept, and nothing is handed to [sendActivity]. *)
Theorem onFollow_without_actor :
  forall (RT : Runtime) (cfg : Config) (ctx : Context) (follow : Follow)
         (w : World),
    truthy (option_map href (follow_actorId follow)) = false ->
    onFollow cfg ctx follow w = (Ok tt, w).
Proof.
  intros RT cfg ctx follow w Hactor.
  unfold onFollow, try_catch. cbv zeta.
  destruct (truthy (resolve_username ctx)); cbn [negb]; [|reflexivity].
  destruct (follow_actorId follow) as [actor|]; [|reflexivity].
  simpl in Hactor. apply negb_false_iff in Hactor. now rewrite Hactor.
Qed.

Lemma onFollow_without_actor_witness :
  onFollow (RT := sample_runtime) sample_cfg sample_ctx follow_without_actor
           followed_world
  = (Ok tt, followed_world).
Proof.
  apply (onFollow_without_actor sample_runtime sample_cfg sample_ctx
                                follow_without_actor followed_world).
  reflexivity.
Defined.

(** C8.  A Follow whose local user and remote actor resolve but whose own
    [id] gives no usable reference (it is neither a URL nor a string, or
    its text is empty): the listener runs the
    [INSERT OR IGNORE] for the pair, so the pair has a row afterwards and
    the user counts as followed, and then returns.  The trace gains that
    one statement and nothing else, and no identifier is drawn: no Accept
    is built and none is sent. *)
Theorem onFollow_without_id :
  forall (RT : Runtime) (cfg : Config) (ctx : Context) (follow : Follow)
         (w : World) (username : string) (actor : URL),
    resolve_username ctx = Some username -> username <> "" ->
    follow_actorId follow = Some actor -> href actor <> "" ->
    truthy (followId_of (follow_id follow)) = false ->
    onFollow cfg ctx follow w
    = (Ok tt,
       emit (EvRun (InsertOrIgnoreFollower username (href actor)))
            (with_db (record_follow username (href actor) (db w)) w)) /\
    followerRows username (href actor)
                 (db (snd (onFollow cfg ctx follow w))) <> [] /\
    hasFollowers username (db (snd (onFollow cfg ctx follow w))) = true /\
    filter is_send (trace (snd (onFollow cfg ctx follow w)))
    = filter is_send (trace w) /\
    entropy (snd (onFollow cfg ctx follow w)) = entropy w.
Proof.
  intros RT cfg ctx follow w username actor Hname Hne Hactor Hhref Hid.
  destruct (truthy_resolved ctx username Hname Hne) as [Ht Hu].
  assert (E : onFollow cfg ctx follow w
              = (Ok tt,
                 emit (EvRun (InsertOrIgnoreFollower username (href actor)))
                      (with_db (record_follow username (href actor) (db w))
                               w))).
  { unfold onFollow, try_catch. cbv zeta.
    rewrite Ht, Hu, Hactor, Hid. cbn [negb].
    destruct (String.eqb_spec (href actor) ""); [contradiction|].
    unfold bind, run, ret, exec, record_follow.
    destruct (existsb _ (followers (db w))); reflexivity. }
  rewrite E. cbn [snd]. split; [reflexivity|].
  split; [apply record_follow_rows|].
  split; [eapply followerRows_hasFollowers; apply record_follow_rows|].
  split; [|reflexivity].
  cbn [trace emit with_db]. rewrite filter_app. simpl. apply app_nil_r.
Qed.

Lemma onFollow_without_id_witness :
  onFollow (RT := sample_runtime) sample_cfg inbox_ctx follow_without_id
           alice_world
  = (Ok tt,
     emit (EvRun (InsertOrIgnoreFollower "alice" bob))
          (with_db (record_follow "alice" bob (db alice_world)) alice_world))
  /\
  followerRows "alice" bob
    (db (snd (onFollow (RT := sample_runtime) sample_cfg inbox_ctx
                       follow_without_id alice_world))) <> [] /\
  hasFollowers "alice"
    (db (snd (onFollow (RT := sample_runtime) sample_cfg inbox_ctx
                       follow_without_id alice_world))) = true /\
  filter is_send
    (trace (snd (onFollow (RT := sample_runtime) sample_cfg inbox_ctx
                          follow_without_id alice_world)))
  = filter is_send (trace alice_world) /\
  entropy (snd (onFollow (RT := sample_runtime) sample_cfg inbox_ctx
                         follow_without_id alice_world))
  = entropy alice_world.
Proof.
  apply (onFollow_without_id sample_runtime sample_cfg inbox_ctx
                             follow_without_id alice_world "alice" bob_url).
  - reflexivity.
  - discriminate.
  - reflexivity.
  - discriminate.
  - reflexivity.
Defined.

(** The Undo listener on an Undo of a Follow by a resolvable actor. *)
Lemma onUndo_follow ctx undo w username actor f :
  resolve_username ctx = Some username -> username <> "" ->
  undo_getObject undo = ObjectFollow f ->
  undo_actorId undo = Some actor -> href actor <> "" ->
  onUndo ctx undo w
  = (Ok tt,
     emit (EvRun (DeleteFollower username (href actor)))
          (with_db (remove_follow username (href actor) (db w)) w)).
Proof.
  intros Hname Hne Hobj Hactor Hhref.
  destruct (truthy_resolved ctx username Hname Hne) as [Ht Hu].
  unfold onUndo. cbv zeta. rewrite Ht, Hu, Hobj, Hactor. cbn [negb].
  destruct (String.eqb_spec (href actor) ""); [contradiction|].
  reflexivity.
Qed.

(** C6.  A Follow for a (local username, remote actor) pair followed by
    an Undo of a Follow for the same pair.  After the Follow the pair has
    a row and [hasFollowers] answers true; after the Undo the pair has no
    row.  Both listeners return normally.  Delivering the Follow a second
    time leaves the tables as the first delivery left them, delivering
    the Undo a second time leaves the tables as the first Undo left them,
    and an Undo after a repeated Follow ends in the same tables as an
    Undo after a single one. *)
Theorem follow_undo_round_trip :
  forall (RT : Runtime) (cfg : Config) (ctx ctx' : Context)
         (follow : Follow) (undo : Undo) (undone : Follow) (w : World)
         (username : string) (actor : URL),
    resolve_username ctx = Some username ->
    resolve_username ctx' = Some username ->
    username <> "" ->
    follow_actorId follow = Some actor ->
    undo_actorId undo = Some actor ->
    href actor <> "" ->
    undo_getObject undo = ObjectFollow undone ->
    let w1 := snd (onFollow cfg ctx follow w) in
    let w2 := snd (onUndo ctx' undo w1) in
    fst (onFollow cfg ctx follow w) = Ok tt /\
    followerRows username (href actor) (db w1) <> [] /\
    hasFollowers username (db w1) = true /\
    fst (onUndo ctx' undo w1) = Ok tt /\
    followerRows username (href actor) (db w2) = [] /\
    db (snd (onFollow cfg ctx follow w1)) = db w1 /\
    db (snd (onUndo ctx' undo w2)) = db w2 /\
    db (snd (onUndo ctx' undo (snd (onFollow cfg ctx follow w1)))) = db w2.
Proof.
  intros RT cfg ctx ctx' follow undo undone w username actor
         Hname Hname' Hne Hactor Hactor' Hhref Hobj w1 w2.
  destruct (truthy_resolved ctx username Hname Hne) as [Ht Hu].
  assert (Htarget : follow_target ctx follow = Some (username, href actor)).
  { unfold follow_target. rewrite Ht, Hu, Hactor.
    destruct (String.eqb_spec (href actor) ""); [contradiction|].
    reflexivity. }
  assert (Hfol : followers (db w1)
                 = followers (record_follow username (href actor) (db w))).
  { destruct (onFollow_effect cfg ctx follow w) as [_ E].
    rewrite Htarget in E. apply E. }
  assert (Hrows : followerRows username (href actor) (db w1) <> []).
  { unfold followerRows. rewrite Hfol. apply record_follow_rows. }
  assert (Hundo : forall v, onUndo ctx' undo v
                            = (Ok tt,
                               emit (EvRun (DeleteFollower username
                                                           (href actor)))
                                    (with_db (remove_follow username
                                                (href actor) (db v)) v))).
  { intros v. eapply onUndo_follow; eassumption. }
  assert (Hagain : db (snd (onFollow cfg ctx follow w1)) = db w1)
    by apply onFollow_again.
  subst w2. rewrite !Hundo. cbn [fst snd db emit with_db].
  rewrite Hagain.
  split; [apply onFollow_effect|].
  split; [exact Hrows|].
  split; [eapply followerRows_hasFollowers; exact Hrows|].
  split; [reflexivity|].
  split; [apply remove_follow_rows|].
  split; [reflexivity|].
  split; [apply remove_follow_idempotent|].
  reflexivity.
Qed.

Lemma follow_undo_round_trip_witness :
  let w1 := snd (onFollow (RT := sample_runtime) sample_cfg sample_ctx
                          follow_by_bob alice_world) in
  let w2 := snd (onUndo inbox_ctx undo_by_bob w1) in
  fst (onFollow (RT := sample_runtime) sample_cfg sample_ctx follow_by_bob
                alice_world) = Ok tt /\
  followerRows "alice" (href bob_url) (db w1) <> [] /\
  hasFollowers "alice" (db w1) = true /\
  fst (onUndo inbox_ctx undo_by_bob w1) = Ok tt /\
  followerRows "alice" (href bob_url) (db w2) = [] /\
  db (snd (onFollow (RT := sample_runtime) sample_cfg sample_ctx
                    follow_by_bob w1)) = db w1 /\
  db (snd (onUndo inbox_ctx undo_by_bob w2)) = db w2 /\
  db (snd (onUndo inbox_ctx undo_by_bob
             (snd (onFollow (RT := sample_runtime) sample_cfg sample_ctx
                            follow_by_bob w1)))) = db w2.
Proof.
  apply (follow_undo_round_trip sample_runtime sample_cfg sample_ctx
           inbox_ctx follow_by_bob undo_by_bob follow_by_bob alice_world
           "alice" bob_url).
  - reflexivity.
  - reflexivity.
  - discriminate.
  - reflexivity.
  - reflexivity.
  - discriminate.
  - reflexivity.
Defined.

(* ================================================================== *)
(** ** Store-wide facts *)

Lemma reach_one s d d' : exec s d = Some d' -> reach d d'.
Proof. intros H. eapply reach_step; [exact H | apply reach_refl]. Qed.

Lemma reach_trans d1 d2 d3 : reach d1 d2 -> reach d2 d3 -> reach d1 d3.
Proof.
  induction 1 as [|s d d' d'' Hexec _ IH]; [auto|].
  intros H3. eapply reach_step; [exact Hexec | auto].
Qed.

(** A property kept by every statement is kept along [reach]. *)
Lemma reach_invariant (P : DB -> Prop) :
  (forall s d d', exec s d = Some d' -> P d -> P d') ->
  forall d d', reach d d' -> P d -> P d'.
Proof.
  intros Hstep d d' Hreach. induction Hreach as [|s d d' d'' Hexec _ IH];
    [auto|].
  intros HP. apply IH. eapply Hstep; eauto.
Qed.

Lemma ensureUser_reach username w :
  reach (db w) (db (snd (ensureUser username w))).
Proof.
  rewrite ensureUser_unfold. unfold ensureUser_paths.
  destruct (selectUser username (db w)); [apply reach_refl|].
  destruct (result (net w (user_url username))) as [|[|] [data|]];
    try apply reach_refl.
  destruct (userInfo data) as [info|]; try apply reach_refl.
  destruct (selectUser (UserInfo.username info) (db w)) eqn:E;
    [apply reach_refl|].
  apply (reach_one (InsertUser (user_row info))). simpl.
  change (User.username (user_row info)) with (UserInfo.username info).
  now rewrite E.
Qed.

Lemma upsert_world_reach `{Runtime} username ps w :
  reach (db w) (db (upsert_world username ps w)).
Proof.
  revert w. induction ps as [|p ps IH]; intros w.
  - unfold upsert_world. simpl. destruct w as [[? ? ?] ? ? ? ?].
    apply reach_refl.
  - eapply reach_step with (s := InsertOrReplacePost (post_row username p));
      [reflexivity|].
    specialize (IH (with_db
                      (mkDB (users (db w))
                            (filter (fun q => negb (String.eqb
                                                      (Post.postId q)
                                                      (PostInfo.postId p)))
                                    (posts (db w))
                             ++ [post_row username p])
                            (followers (db w))) w)).
    exact IH.
Qed.

Lemma sync_commit_reach `{Runtime} username ps w :
  reach (db w) (db (sync_commit username ps w)).
Proof.
  eapply reach_trans; [apply (upsert_world_reach username ps w)|].
  unfold sync_commit. cbv zeta.
  apply (reach_one (UpdateLastPostSync (now (upsert_world username ps w))
                                       username)).
  reflexivity.
Qed.

Lemma syncPosts_reach `{Runtime} cfg username w :
  reach (db w) (db (snd (syncPosts cfg username w))).
Proof.
  rewrite syncPosts_unfold. unfold syncPosts_paths.
  pose proof (ensureUser_reach username w) as Hens.
  destruct (ensureUser username w) as [[[u|]|e] w1]; cbn [snd] in *;
    try exact Hens.
  destruct (hasFollowers username (db w1)); cbn [negb]; [|exact Hens].
  destruct (now w1 - User.lastPostSync u <? SYNC_TTL cfg); [exact Hens|].
  destruct (result (net w1 (posts_url (User.userId u)))) as [|[|] [data|]];
    try exact Hens.
  cbn [snd]. eapply reach_trans; [exact Hens|].
  apply (sync_commit_reach username (postInfos_or_empty data)
           (with_now (now w1 + elapsed (net w1 (posts_url (User.userId u))))
                     (emit (EvFetch (posts_url (User.userId u))) w1))).
Qed.

Lemma keyPairsDispatcher_reach `{Runtime} identifier w :
  reach (db w) (db (snd (keyPairsDispatcher identifier w))).
Proof.
  destruct (selectUser (identifier_username identifier) (db w))
    as [u|] eqn:Hsel.
  - destruct (truthy (User.publicKey u) && truthy (User.privateKey u))
      eqn:Hkeys.
    + rewrite (keyPairsDispatcher_stored identifier w u Hsel Hkeys).
      apply reach_refl.
    + rewrite (keyPairsDispatcher_fresh_eq identifier w u Hsel Hkeys).
      cbn [snd].
      apply (reach_one (UpdateKeys (pub_text (entropy w))
                                   (priv_text (entropy w))
                                   (identifier_username identifier))).
      reflexivity.
  - unfold keyPairsDispatcher. unfold bind, query. rewrite Hsel.
    apply reach_refl.
Qed.

Lemma outboxDispatcher_reach `{Runtime} cfg ctx identifier w :
  reach (db w) (db (snd (outboxDispatcher cfg ctx identifier w))).
Proof.
  rewrite outboxDispatcher_unfold. cbv zeta.
  destruct (hasFollowers (identifier_username identifier) (db w));
    [|apply reach_refl].
  apply syncPosts_reach.
Qed.

Lemma record_follow_reach username actor d :
  reach d (record_follow username actor d).
Proof.
  apply (reach_one (InsertOrIgnoreFollower username actor)).
  unfold exec, record_follow.
  destruct (existsb _ (followers d)); reflexivity.
Qed.

Lemma onFollow_reach `{Runtime} cfg ctx follow w :
  reach (db w) (db (snd (onFollow cfg ctx follow w))).
Proof.
  rewrite onFollow_unfold. cbn [snd]. unfold onFollow_world. cbv zeta.
  destruct (truthy (resolve_username ctx)); [|apply reach_refl].
  destruct (follow_actorId follow) as [actor|]; [|apply reach_refl].
  destruct (String.eqb (href actor) ""); [apply reach_refl|].
  destruct (truthy (followId_of (follow_id follow)));
    [|apply record_follow_reach].
  destruct (accept_built cfg ctx follow _ _) as [accept|];
    [|apply record_follow_reach].
  eapply reach_trans; [|apply keyPairsDispatcher_reach].
  apply record_follow_reach.
Qed.

Lemma keyPairsDispatcher_users_length `{Runtime} identifier w :
  length (users (db (snd (keyPairsDispatcher identifier w))))
  = length (users (db w)).
Proof.
  destruct (selectUser (identifier_username identifier) (db w))
    as [u|] eqn:Hsel.
  - destruct (truthy (User.publicKey u) && truthy (User.privateKey u))
      eqn:Hkeys.
    + now rewrite (keyPairsDispatcher_stored identifier w u Hsel Hkeys).
    + rewrite (keyPairsDispatcher_fresh_eq identifier w u Hsel Hkeys).
      cbn [snd db emit with_db users]. apply length_map.
  - unfold keyPairsDispatcher, bind, query. now rewrite Hsel.
Qed.

Lemma record_follow_users username actor d :
  users (record_follow username actor d) = users d.
Proof. unfold record_follow. destruct (existsb _ _); reflexivity. Qed.

Lemma onFollow_users_length `{Runtime} cfg ctx follow w :
  length (users (db (snd (onFollow cfg ctx follow w))))
  = length (users (db w)).
Proof.
  rewrite onFollow_unfold. cbn [snd]. unfold onFollow_world. cbv zeta.
  destruct (truthy (resolve_username ctx)); [|reflexivity].
  destruct (follow_actorId follow) as [actor|]; [|reflexivity].
  destruct (String.eqb (href actor) ""); [reflexivity|].
  destruct (truthy (followId_of (follow_id follow)));
    [|cbn [db emit with_db]; now rewrite record_follow_users].
  destruct (accept_built cfg ctx follow _ _) as [accept|];
    [|cbn [db emit with_db with_entropy]; now rewrite record_follow_users].
  rewrite keyPairsDispatcher_users_length.
  cbn [db emit with_db with_entropy]. now rewrite record_follow_users.
Qed.

(** The whole behaviour of the Undo listener. *)
Lemma onUndo_unfold ctx undo w :
  onUndo ctx undo w
  = if truthy (resolve_username ctx)
    then match undo_getObject undo with
         | ObjectRejects => (Throw FetchError, w)
         | ObjectOther => (Ok tt, w)
         | ObjectFollow _ =>
             match undo_actorId undo with
             | None => (Ok tt, w)
             | Some actor =>
                 if String.eqb (href actor) "" then (Ok tt, w)
                 else
                   let username := or_empty (resolve_username ctx) in
                   (Ok tt,
                    emit (EvRun (DeleteFollower username (href actor)))
                         (with_db (remove_follow username (href actor) (db w))
                                  w))
             end
         end
    else (Ok tt, w).
Proof.
  unfold onUndo. cbv zeta.
  destruct (truthy (resolve_username ctx)); cbn [negb]; [|reflexivity].
  destruct (undo_getObject undo); try reflexivity.
  destruct (undo_actorId undo) as [actor|]; [|reflexivity].
  destruct (String.eqb (href actor) ""); reflexivity.
Qed.

Lemma onUndo_reach ctx undo w :
  reach (db w) (db (snd (onUndo ctx undo w))).
Proof.
  rewrite onUndo_unfold.
  destruct (truthy (resolve_username ctx)); [|apply reach_refl].
  destruct (undo_getObject undo); try apply reach_refl.
  destruct (undo_actorId undo) as [actor|]; [|apply reach_refl].
  destruct (String.eqb (href actor) ""); [apply reach_refl|].
  cbv zeta. cbn [snd db emit with_db].
  apply (reach_one (DeleteFollower (or_empty (resolve_username ctx))
                                   (href actor))).
  reflexivity.
Qed.

(* ------------------------------------------------------------------ *)
(** *** Primary keys *)

Lemma NoDup_snoc {A} (l : list A) (x : A) :
  NoDup l -> ~ In x l -> NoDup (l ++ [x]).
Proof.
  intros Hl Hx. induction Hl as [|a l Ha Hl IH]; simpl.
  - constructor; [intros []|constructor].
  - constructor.
    + rewrite in_app_iff. intros [Hin|[E|[]]]; [contradiction|].
      apply Hx. now left.
    + apply IH. intros Hin. apply Hx. now right.
Qed.

Lemma NoDup_map_filter {A B} (f : A -> B) (g : A -> bool) (l : list A) :
  NoDup (map f l) -> NoDup (map f (filter g l)).
Proof.
  induction l as [|a l IH]; simpl; [auto|].
  intros Hnd. inversion Hnd as [|? ? Hnotin Hrest]; subst.
  destruct (g a); simpl; [|auto].
  constructor; [|auto].
  intros Hin. apply Hnotin. apply in_map_iff in Hin.
  destruct Hin as (x & Ex & Hx). apply filter_In in Hx.
  apply in_map_iff. exists x. tauto.
Qed.

Lemma selectUser_none_not_in name d :
  selectUser name d = None -> ~ In name (map User.username (users d)).
Proof.
  unfold selectUser. intros Hnone Hin. apply in_map_iff in Hin.
  destruct Hin as (u & Eu & Hu).
  apply (find_none _ _ Hnone) in Hu. simpl in Hu.
  rewrite Eu, String.eqb_refl in Hu. discriminate.
Qed.

Lemma map_username_update (g : User.t -> User.t) username (l : list User.t) :
  (forall u, User.username (g u) = User.username u) ->
  map User.username
      (map (fun u => if String.eqb (User.username u) username
                     then g u else u) l)
  = map User.username l.
Proof.
  intros Hg. rewrite map_map. apply map_ext. intros u.
  destruct (String.eqb (User.username u) username); [apply Hg | reflexivity].
Qed.

Lemma existsb_pair_false_not_in username actor (l : list Follower.t) :
  existsb (Follower.is_pair username actor) l = false ->
  ~ In (username, actor) (map follower_key l).
Proof.
  intros Hex Hin. apply in_map_iff in Hin. destruct Hin as (f & Ef & Hf).
  assert (Hp : Follower.is_pair username actor f = true).
  { unfold follower_key in Ef. inversion Ef; subst.
    unfold Follower.is_pair. now rewrite !String.eqb_refl. }
  assert (existsb (Follower.is_pair username actor) l = true)
    by (apply existsb_exists; eauto).
  congruence.
Qed.

(** Every statement keeps the primary keys. *)
Lemma exec_keys_unique s d d' :
  exec s d = Some d' -> keys_unique d -> keys_unique d'.
Proof.
  unfold keys_unique. intros Hexec (Hu & Hp & Hf).
  destruct s; simpl in Hexec.
  - destruct (selectUser (User.username row) d) eqn:E; [discriminate|].
    inversion Hexec; subst; simpl. repeat split; auto.
    rewrite map_app. simpl. apply NoDup_snoc; [exact Hu|].
    now apply selectUser_none_not_in.
  - inversion Hexec; subst; simpl. repeat split; auto.
    rewrite map_app. simpl. apply NoDup_snoc.
    + now apply NoDup_map_filter.
    + intros Hin. apply in_map_iff in Hin. destruct Hin as (q & Eq & Hq).
      apply filter_In in Hq. destruct Hq as [_ Hq].
      rewrite Eq, String.eqb_refl in Hq. discriminate.
  - inversion Hexec; subst; simpl. repeat split; auto.
    now rewrite map_username_update.
  - inversion Hexec; subst; simpl. repeat split; auto.
    now rewrite map_username_update.
  - destruct (existsb (Follower.is_pair username actor) (followers d)) eqn:E;
      inversion Hexec; subst; simpl; repeat split; auto.
    rewrite map_app. simpl. apply NoDup_snoc; [exact Hf|].
    now apply existsb_pair_false_not_in.
  - inversion Hexec; subst; simpl. repeat split; auto.
    now apply NoDup_map_filter.
Qed.

(** X1.  The primary keys of the schema are an invariant of the bridge:
    from a store with one row per username, per postId and per
    (username, actor) pair, each of [ensureUser], [syncPosts], the
    key-pair dispatcher, the outbox dispatcher and the two inbox
    listeners ends in such a store, whatever the platform answers and
    whether or not the call raises. *)
Theorem primary_keys_kept :
  forall (RT : Runtime) (cfg : Config) (ctx : Context)
         (identifier : Identifier) (username : string)
         (follow : Follow) (undo : Undo) (w : World),
    keys_unique (db w) ->
    keys_unique (db (snd (ensureUser username w))) /\
    keys_unique (db (snd (syncPosts cfg username w))) /\
    keys_unique (db (snd (keyPairsDispatcher identifier w))) /\
    keys_unique (db (snd (outboxDispatcher cfg ctx identifier w))) /\
    keys_unique (db (snd (onFollow cfg ctx follow w))) /\
    keys_unique (db (snd (onUndo ctx undo w))).
Proof.
  intros RT cfg ctx identifier username follow undo w Hk.
  pose proof (reach_invariant keys_unique exec_keys_unique) as Hinv.
  split; [eapply Hinv; [apply ensureUser_reach | exact Hk]|].
  split; [eapply Hinv; [apply syncPosts_reach | exact Hk]|].
  split; [eapply Hinv; [apply keyPairsDispatcher_reach | exact Hk]|].
  split; [eapply Hinv; [apply outboxDispatcher_reach | exact Hk]|].
  split; [eapply Hinv; [apply onFollow_reach | exact Hk]|].
  eapply Hinv; [apply onUndo_reach | exact Hk].
Qed.

Lemma primary_keys_kept_witness :
  keys_unique (db (snd (ensureUser "alice" followed_world))) /\
  keys_unique (db (snd (syncPosts (RT := sample_runtime) sample_cfg "alice"
                                  followed_world))) /\
  keys_unique (db (snd (keyPairsDispatcher (RT := sample_runtime)
                          (IdentifierString "alice") followed_world))) /\
  keys_unique (db (snd (outboxDispatcher (RT := sample_runtime) sample_cfg
                          sample_ctx (IdentifierString "alice")
                          followed_world))) /\
  keys_unique (db (snd (onFollow (RT := sample_runtime) sample_cfg sample_ctx
                                 follow_by_bob followed_world))) /\
  keys_unique (db (snd (onUndo sample_ctx undo_by_bob followed_world))).
Proof.
  apply (primary_keys_kept sample_runtime sample_cfg sample_ctx
           (IdentifierString "alice") "alice" follow_by_bob undo_by_bob
           followed_world).
  unfold keys_unique. simpl.
  repeat split; repeat constructor; simpl; intuition discriminate.
Defined.

(* ------------------------------------------------------------------ *)
(** *** Nothing is deleted, profiles are never refreshed *)

Lemma exec_has_profile name pr s d d' :
  exec s d = Some d' -> has_profile name pr d -> has_profile name pr d'.
Proof.
  unfold has_profile. intros Hexec (u & Hsel & Hpr).
  destruct s; simpl in Hexec.
  - destruct (selectUser (User.username row) d); [discriminate|].
    injection Hexec as <-. exists u. split; [|exact Hpr].
    unfold selectUser in *. simpl. now rewrite find_app_l, Hsel.
  - injection Hexec as <-. exists u. auto.
  - injection Hexec as <-.
    exists (if String.eqb (User.username u) username
            then User.set_lastPostSync t u else u).
    split.
    + unfold selectUser in *. simpl.
      rewrite find_update_users by reflexivity. now rewrite Hsel.
    + destruct (String.eqb (User.username u) username); exact Hpr.
  - injection Hexec as <-.
    exists (if String.eqb (User.username u) username
            then User.set_keys pub priv u else u).
    split.
    + unfold selectUser in *. simpl.
      rewrite find_update_users by reflexivity. now rewrite Hsel.
    + destruct (String.eqb (User.username u) username); exact Hpr.
  - destruct (existsb _ (followers d)); injection Hexec as <-;
      exists u; auto.
  - injection Hexec as <-. exists u. auto.
Qed.

Lemma exec_post_kept postId s d d' :
  exec s d = Some d' -> postRows postId d <> [] -> postRows postId d' <> [].
Proof.
  unfold postRows. intros Hexec Hrows.
  destruct s; simpl in Hexec;
    try (inversion Hexec; subst; exact Hrows).
  - destruct (selectUser (User.username row) d); [discriminate|].
    inversion Hexec; subst; exact Hrows.
  - inversion Hexec; subst. simpl. rewrite filter_id_replace.
    destruct (String.eqb (Post.postId row) postId);
      [discriminate | exact Hrows].
  - destruct (existsb _ (followers d)); inversion Hexec; subst; exact Hrows.
Qed.

(** X2.  Users and posts are never deleted, and a user's profile is
    never refreshed: if before a call of any of the six entry points a
    row is stored under a username with some userId, description, avatar
    and creation time, then after the call a row is stored under that
    username with the same four values; and a postId that had a row
    still has one. *)
Theorem rows_are_kept :
  forall (RT : Runtime) (cfg : Config) (ctx : Context)
         (identifier : Identifier) (username : string)
         (follow : Follow) (undo : Undo) (w : World)
         (name : string) (pr : string * string * string * Z)
         (postId : string),
    let kept (d' : DB) :=
      (has_profile name pr (db w) -> has_profile name pr d') /\
      (postRows postId (db w) <> [] -> postRows postId d' <> []) in
    kept (db (snd (ensureUser username w))) /\
    kept (db (snd (syncPosts cfg username w))) /\
    kept (db (snd (keyPairsDispatcher identifier w))) /\
    kept (db (snd (outboxDispatcher cfg ctx identifier w))) /\
    kept (db (snd (onFollow cfg ctx follow w))) /\
    kept (db (snd (onUndo ctx undo w))).
Proof.
  intros RT cfg ctx identifier username follow undo w name pr postId kept.
  assert (Hkept : forall d', reach (db w) d' -> kept d').
  { intros d' Hreach. split.
    - apply (reach_invariant (has_profile name pr)
                             (exec_has_profile name pr) _ _ Hreach).
    - apply (reach_invariant (fun d => postRows postId d <> [])
                             (exec_post_kept postId) _ _ Hreach). }
  split; [apply Hkept, ensureUser_reach|].
  split; [apply Hkept, syncPosts_reach|].
  split; [apply Hkept, keyPairsDispatcher_reach|].
  split; [apply Hkept, outboxDispatcher_reach|].
  split; [apply Hkept, onFollow_reach|].
  apply Hkept, onUndo_reach.
Qed.

Lemma rows_are_kept_witness :
  (has_profile "alice" (profile alice_row)
     (db (snd (syncPosts (RT := sample_runtime) sample_cfg "alice"
                         stocked_world))) /\
   postRows "a" (db (snd (syncPosts (RT := sample_runtime) sample_cfg "alice"
                                    stocked_world))) <> []) /\
  (has_profile "alice" (profile alice_row)
     (db (snd (onUndo sample_ctx undo_by_bob stocked_world))) /\
   postRows "a" (db (snd (onUndo sample_ctx undo_by_bob stocked_world)))
   <> []).
Proof.
  destruct (rows_are_kept sample_runtime sample_cfg sample_ctx
              (IdentifierString "alice") "alice" follow_by_bob undo_by_bob
              stocked_world "alice" (profile alice_row) "a")
    as (_ & [Hs1 Hs2] & _ & _ & _ & [Hu1 Hu2]).
  assert (Hp : has_profile "alice" (profile alice_row) (db stocked_world)).
  { exists (User.set_lastPostSync 999000 alice_row). split; reflexivity. }
  assert (Hr : postRows "a" (db stocked_world) <> []) by discriminate.
  split; split; auto.
Defined.

(* ------------------------------------------------------------------ *)
(** *** The NodeInfo user total *)

Lemma sync_commit_users_length `{Runtime} username ps w :
  length (users (db (sync_commit username ps w))) = length (users (db w)).
Proof. unfold sync_commit, upsert_world. simpl. apply length_map. Qed.

Lemma syncPosts_users_length `{Runtime} cfg username w :
  length (users (db (snd (syncPosts cfg username w))))
  = length (users (db (snd (ensureUser username w)))).
Proof.
  rewrite syncPosts_unfold. unfold syncPosts_paths.
  destruct (ensureUser username w) as [[[u|]|e] w1]; cbn [snd];
    try reflexivity.
  destruct (hasFollowers username (db w1)); cbn [negb]; [|reflexivity].
  destruct (now w1 - User.lastPostSync u <? SYNC_TTL cfg); [reflexivity|].
  destruct (result (net w1 (posts_url (User.userId u)))) as [|[|] [data|]];
    try reflexivity.
  cbn [snd]. now rewrite sync_commit_users_length.
Qed.

(** X3.  The user total that [GET /nodeinfo/2.0] reports moves only when
    [ensureUser] inserts.  The key-pair dispatcher and the two inbox
    listeners never change it; [syncPosts] and the outbox dispatcher
    change it only through their call of [ensureUser]; [ensureUser]
    leaves it alone when the requested row is stored, never lowers it,
    raises it by at most one, and raises it by exactly one when it
    provisions the requested user. *)
Theorem nodeinfo_user_total :
  forall (RT : Runtime) (cfg : Config) (ctx : Context)
         (identifier : Identifier) (username : string)
         (follow : Follow) (undo : Undo) (w : World),
    let total (v : World) := usage_users_total (nodeinfo (db v)) in
    total (snd (keyPairsDispatcher identifier w)) = total w /\
    total (snd (onFollow cfg ctx follow w)) = total w /\
    total (snd (onUndo ctx undo w)) = total w /\
    total (snd (syncPosts cfg username w))
    = total (snd (ensureUser username w)) /\
    (total (snd (outboxDispatcher cfg ctx identifier w)) = total w \/
     total (snd (outboxDispatcher cfg ctx identifier w))
     = total (snd (ensureUser (identifier_username identifier) w))) /\
    total w <= total (snd (ensureUser username w)) <= total w + 1 /\
    (forall u, selectUser username (db w) = Some u ->
               total (snd (ensureUser username w)) = total w) /\
    (forall u, selectUser username (db w) = None ->
               fst (ensureUser username w) = Ok (Some u) ->
               total (snd (ensureUser username w)) = total w + 1).
Proof.
  intros RT cfg ctx identifier username follow undo w total.
  unfold total, nodeinfo. cbn [usage_users_total].
  assert (Hens : forall name,
             length (users (db (snd (ensureUser name w))))
             = length (users (db w)) \/
             (length (users (db (snd (ensureUser name w))))
              = S (length (users (db w))) /\
              selectUser name (db w) = None)).
  { intros name. rewrite ensureUser_unfold. unfold ensureUser_paths.
    destruct (selectUser name (db w)); [left; reflexivity|].
    destruct (result (net w (user_url name))) as [|[|] [data|]];
      try (left; reflexivity).
    destruct (userInfo data) as [info|]; try (left; reflexivity).
    destruct (selectUser (UserInfo.username info) (db w));
      [left; reflexivity|].
    right. split; [|reflexivity]. cbn [snd db emit with_db users].
    rewrite length_app. simpl. lia. }
  split.
  { f_equal. apply keyPairsDispatcher_users_length. }
  split.
  { f_equal. apply onFollow_users_length. }
  split.
  { rewrite onUndo_unfold.
    destruct (truthy (resolve_username ctx)); [|reflexivity].
    destruct (undo_getObject undo); try reflexivity.
    destruct (undo_actorId undo) as [actor|]; [|reflexivity].
    destruct (String.eqb (href actor) ""); reflexivity. }
  split.
  { now rewrite syncPosts_users_length. }
  split.
  { rewrite outboxDispatcher_unfold. cbv zeta.
    destruct (hasFollowers (identifier_username identifier) (db w));
      [right | left; reflexivity].
    cbn [snd]. now rewrite syncPosts_users_length. }
  split.
  { destruct (Hens username) as [E|[E _]]; rewrite E; lia. }
  split.
  { intros u Hsel. now rewrite (ensureUser_hit _ _ _ Hsel). }
  intros u Hnone Hres.
  rewrite ensureUser_unfold in *. unfold ensureUser_paths in *.
  rewrite Hnone in *.
  destruct (result (net w (user_url username))) as [|[|] [data|]];
    try discriminate.
  destruct (userInfo data) as [info|]; try discriminate.
  destruct (selectUser (UserInfo.username info) (db w)); try discriminate.
  cbn [snd db emit with_db users]. rewrite length_app. simpl. lia.
Qed.

Lemma nodeinfo_user_total_witness :
  usage_users_total (nodeinfo (db (snd (ensureUser "alice" alice_world))))
  = usage_users_total (nodeinfo (db alice_world)) /\
  usage_users_total (nodeinfo (db (snd (ensureUser "alice" fresh_world))))
  = usage_users_total (nodeinfo (db fresh_world)) + 1.
Proof.
  pose proof (nodeinfo_user_total sample_runtime sample_cfg sample_ctx
                (IdentifierString "alice") "alice" follow_by_bob undo_by_bob
                alice_world) as Hstored.
  pose proof (nodeinfo_user_total sample_runtime sample_cfg sample_ctx
                (IdentifierString "alice") "alice" follow_by_bob undo_by_bob
                fresh_world) as Hfresh.
  cbv zeta in Hstored, Hfresh.
  destruct Hstored as (_ & _ & _ & _ & _ & _ & Hhit & _).
  destruct Hfresh as (_ & _ & _ & _ & _ & _ & _ & Hnew).
  split.
  - apply (Hhit alice_row). reflexivity.
  - apply (Hnew alice_row); reflexivity.
Defined.

(* ================================================================== *)
(** ** Inbox: which user an event is for *)

Lemma split_sep_free sep s : contains sep s = false -> split sep s = [s].
Proof.
  induction s as [|c s IH]; simpl; [reflexivity|].
  destruct (Ascii.eqb c sep); simpl; [discriminate|].
  intros H. now rewrite (IH H).
Qed.

Lemma split_segment sep a b :
  contains sep a = false ->
  split sep (a ++ String sep b) = a :: split sep b.
Proof.
  induction a as [|c a IH]; simpl.
  - intros _. now rewrite Ascii.eqb_refl.
  - destruct (Ascii.eqb c sep); simpl; [discriminate|].
    intros H. now rewrite (IH H).
Qed.

Lemma split_nonempty sep s : split sep s <> [].
Proof.
  destruct s as [|c s]; simpl; [discriminate|].
  destruct (Ascii.eqb c sep); [discriminate|].
  destruct (split sep s); discriminate.
Qed.

(** X4.  Which local user an inbox event is for.  A non-empty route
    parameter wins.  Without one, the user is the third piece of the
    request path cut at every slash: for a path [/first/name] or
    [/first/name/rest] (with [first] and [name] free of slashes) it is
    [name], whatever [first] is; the listeners do not look at the first
    segment. *)
Theorem resolve_username_route :
  forall (ctx : Context),
    (forall p, parameters_identifier ctx = Some p -> p <> "" ->
               resolve_username ctx = Some p) /\
    (forall u first name,
        truthy (parameters_identifier ctx) = false ->
        ctx_url ctx = Some u ->
        contains "/" first = false -> contains "/" name = false ->
        (pathname u = ("/" ++ first ++ "/" ++ name)%string ->
         resolve_username ctx = Some name) /\
        (forall rest,
            pathname u = ("/" ++ first ++ "/" ++ name ++ "/" ++ rest)%string ->
            resolve_username ctx = Some name)).
Proof.
  intros ctx. split.
  - intros p Hp Hne. unfold resolve_username.
    now rewrite Hp, (truthy_some _ Hne).
  - intros u first name Hparam Hurl Hfirst Hname.
    unfold resolve_username. rewrite Hparam, Hurl. split.
    + intros ->. simpl. rewrite (split_segment "/" first name Hfirst).
      now rewrite (split_sep_free "/" name Hname).
    + intros rest ->. simpl.
      rewrite (split_segment "/" first _ Hfirst).
      now rewrite (split_segment "/" name rest Hname).
Qed.

Lemma resolve_username_route_witness :
  resolve_username sample_ctx = Some "alice" /\
  resolve_username (path_ctx "/users/alice") = Some "alice" /\
  resolve_username (path_ctx "/users/alice/inbox") = Some "alice".
Proof.
  split; [|split].
  - apply (proj1 (resolve_username_route sample_ctx) "alice");
      [reflexivity | discriminate].
  - apply (proj1 (proj2 (resolve_username_route (path_ctx "/users/alice"))
                        (mkURL "https://bridge.example/users/alice"
                               "/users/alice")
                        "users" "alice" eq_refl eq_refl eq_refl eq_refl)).
    reflexivity.
  - apply (proj2 (proj2 (resolve_username_route
                           (path_ctx "/users/alice/inbox"))
                        (mkURL "https://bridge.example/users/alice/inbox"
                               "/users/alice/inbox")
                        "users" "alice" eq_refl eq_refl eq_refl eq_refl)
                 "inbox").
    reflexivity.
Defined.

(** X5.  An inbox event for which no local user can be worked out is
    dropped without a trace.  With no route parameter and either no
    request URL or a path of a single segment (such as the shared inbox
    [/inbox]), both listeners return normally and leave the world exactly
    as it was, whatever the activity; the Undo listener does not even
    resolve the Undo's object. *)
Theorem inbox_event_without_user_dropped :
  forall (RT : Runtime) (cfg : Config) (ctx : Context)
         (follow : Follow) (undo : Undo) (w : World),
    truthy (parameters_identifier ctx) = false ->
    (ctx_url ctx = None \/
     exists u seg, ctx_url ctx = Some u /\
                   pathname u = ("/" ++ seg)%string /\
                   contains "/" seg = false) ->
    onFollow cfg ctx follow w = (Ok tt, w) /\
    onUndo ctx undo w = (Ok tt, w).
Proof.
  intros RT cfg ctx follow undo w Hparam Hurl.
  assert (Hres : truthy (resolve_username ctx) = false).
  { unfold resolve_username. rewrite Hparam.
    destruct Hurl as [->|(u & seg & -> & Hpath & Hseg)]; [reflexivity|].
    rewrite Hpath. simpl. now rewrite (split_sep_free "/" seg Hseg). }
  split.
  - unfold onFollow, try_catch. cbv zeta. now rewrite Hres.
  - rewrite onUndo_unfold. now rewrite Hres.
Qed.

Lemma inbox_event_without_user_dropped_witness :
  onFollow (RT := sample_runtime) sample_cfg (path_ctx "/inbox")
           follow_by_bob alice_world = (Ok tt, alice_world) /\
  onUndo (path_ctx "/inbox") undo_by_bob followed_world
  = (Ok tt, followed_world).
Proof.
  split.
  - apply (inbox_event_without_user_dropped sample_runtime sample_cfg
             (path_ctx "/inbox") follow_by_bob undo_by_bob alice_world).
    + reflexivity.
    + right. exists (mkURL "https://bridge.example/inbox" "/inbox"), "inbox".
      repeat split; reflexivity.
  - apply (inbox_event_without_user_dropped sample_runtime sample_cfg
             (path_ctx "/inbox") follow_by_bob undo_by_bob followed_world).
    + reflexivity.
    + right. exists (mkURL "https://bridge.example/inbox" "/inbox"), "inbox".
      repeat split; reflexivity.
Defined.

(* ================================================================== *)
(** ** Inbox: what the listeners touch *)

Lemma is_pair_other username actor username' actor' f :
  (username', actor') <> (username, actor) ->
  Follower.is_pair username' actor' f = true ->
  Follower.is_pair username actor f = false.
Proof.
  unfold Follower.is_pair. intros Hne Hp. apply andb_prop in Hp.
  destruct Hp as [Hu Ha].
  apply String.eqb_eq in Hu. apply String.eqb_eq in Ha. subst.
  destruct (String.eqb_spec (Follower.username f) username);
    destruct (String.eqb_spec (Follower.actor f) actor);
    try reflexivity.
  subst. contradiction Hne. reflexivity.
Qed.

Lemma record_follow_other username actor username' actor' d :
  (username', actor') <> (username, actor) ->
  followerRows username' actor' (record_follow username actor d)
  = followerRows username' actor' d.
Proof.
  intros Hne. unfold followerRows, record_follow.
  destruct (existsb _ (followers d)); [reflexivity|].
  simpl. rewrite filter_app. simpl.
  destruct (Follower.is_pair username' actor' (Follower.mk username actor))
    eqn:E; [|apply app_nil_r].
  apply (is_pair_other username actor) in E; [|exact Hne].
  unfold Follower.is_pair in E. simpl in E.
  now rewrite !String.eqb_refl in E.
Qed.

Lemma remove_follow_other username actor username' actor' d :
  (username', actor') <> (username, actor) ->
  followerRows username' actor' (remove_follow username actor d)
  = followerRows username' actor' d.
Proof.
  intros Hne. unfold followerRows, remove_follow. simpl.
  induction (followers d) as [|f l IH]; simpl; [reflexivity|].
  destruct (Follower.is_pair username' actor' f) eqn:E.
  - rewrite (is_pair_other _ _ _ _ f Hne E). simpl. rewrite E.
    now f_equal.
  - destruct (Follower.is_pair username actor f); simpl;
      [exact IH | rewrite E; exact IH].
Qed.

Lemma pair_eq_dec (p q : string * string) : {p = q} + {p <> q}.
Proof.
  destruct p as [a b], q as [c d].
  destruct (string_dec a c) as [->|N]; [|right; congruence].
  destruct (string_dec b d) as [->|N]; [left; reflexivity|right; congruence].
Qed.

(** X6.  What the Undo listener can do.  It never touches [users] or
    [posts].  It raises only when resolving the Undo's object is
    rejected, which it does not catch, and then the world is unchanged.
    If the object is not a Follow, or the Undo's actor cannot be
    resolved, the world is unchanged.  The rows of a (username, actor)
    pair change only if the event is an Undo of a Follow, the username is
    the one the request resolves to and the actor is the Undo's actor. *)
Theorem onUndo_scope :
  forall (ctx : Context) (undo : Undo) (w : World),
    let w' := snd (onUndo ctx undo w) in
    users (db w') = users (db w) /\
    posts (db w') = posts (db w) /\
    (fst (onUndo ctx undo w) = Ok tt \/
     (onUndo ctx undo w = (Throw FetchError, w) /\
      undo_getObject undo = ObjectRejects)) /\
    ((forall f, undo_getObject undo <> ObjectFollow f) -> w' = w) /\
    (truthy (option_map href (undo_actorId undo)) = false -> w' = w) /\
    (forall username' actor',
        followerRows username' actor' (db w')
        <> followerRows username' actor' (db w) ->
        exists f actor,
          undo_getObject undo = ObjectFollow f /\
          undo_actorId undo = Some actor /\ href actor = actor' /\
          resolve_username ctx = Some username').
Proof.
  intros ctx undo w w'. subst w'. rewrite onUndo_unfold.
  destruct (truthy (resolve_username ctx)) eqn:Hres.
  2:{ cbn [fst snd]. repeat split; auto. intros ? ? N. now contradiction N. }
  destruct (undo_getObject undo) as [|f|] eqn:Hobj.
  - cbn [fst snd]. repeat split; auto. intros ? ? N. now contradiction N.
  - destruct (undo_actorId undo) as [actor|] eqn:Hact.
    2:{ cbn [fst snd]. repeat split; auto.
        intros ? ? N. now contradiction N. }
    destruct (String.eqb (href actor) "") eqn:Hhref.
    { cbn [fst snd]. repeat split; auto.
      intros ? ? N. now contradiction N. }
    cbv zeta. cbn [fst snd db emit with_db].
    split; [reflexivity|]. split; [reflexivity|].
    split; [left; reflexivity|].
    split; [intros N; now contradiction (N f)|].
    split.
    { simpl. unfold truthy. rewrite Hhref. discriminate. }
    intros username' actor' Hdiff.
    destruct (pair_eq_dec (username', actor')
                          (or_empty (resolve_username ctx), href actor))
      as [E|N].
    + inversion E; subst. exists f, actor. repeat split.
      destruct (resolve_username ctx); [reflexivity | discriminate].
    + contradiction Hdiff. now apply remove_follow_other.
  - cbn [fst snd]. repeat split; auto. intros ? ? N. now contradiction N.
Qed.

Lemma onUndo_scope_witness :
  snd (onUndo sample_ctx undo_of_other followed_world) = followed_world /\
  snd (onUndo sample_ctx undo_without_actor followed_world) = followed_world /\
  exists f actor,
    undo_getObject undo_by_bob = ObjectFollow f /\
    undo_actorId undo_by_bob = Some actor /\ href actor = bob /\
    resolve_username sample_ctx = Some "alice".
Proof.
  split; [|split].
  - apply (proj1 (proj2 (proj2 (proj2
             (onUndo_scope sample_ctx undo_of_other followed_world))))).
    intros f. discriminate.
  - apply (proj1 (proj2 (proj2 (proj2 (proj2
             (onUndo_scope sample_ctx undo_without_actor followed_world)))))).
    reflexivity.
  - apply (proj2 (proj2 (proj2 (proj2 (proj2
             (onUndo_scope sample_ctx undo_by_bob followed_world)))))
                 "alice" bob).
    discriminate.
Defined.

Lemma keyPairsDispatcher_sends `{Runtime} identifier w :
  filter is_send (trace (snd (keyPairsDispatcher identifier w)))
  = filter is_send (trace w).
Proof.
  destruct (selectUser (identifier_username identifier) (db w))
    as [u|] eqn:Hsel.
  - destruct (truthy (User.publicKey u) && truthy (User.privateKey u))
      eqn:Hkeys.
    + now rewrite (keyPairsDispatcher_stored identifier w u Hsel Hkeys).
    + rewrite (keyPairsDispatcher_fresh_eq identifier w u Hsel Hkeys).
      cbn [snd trace emit with_db with_entropy].
      rewrite !filter_app. simpl. now rewrite !app_nil_r.
  - unfold keyPairsDispatcher, bind, query. now rewrite Hsel.
Qed.

Lemma onFollow_sends `{Runtime} cfg ctx follow w :
  (length (filter is_send (trace (snd (onFollow cfg ctx follow w))))
   <= length (filter is_send (trace w)) + 1)%nat.
Proof.
  rewrite onFollow_unfold. cbn [snd]. unfold onFollow_world. cbv zeta.
  destruct (truthy (resolve_username ctx)); [|lia].
  destruct (follow_actorId follow) as [actor|]; [|lia].
  destruct (String.eqb (href actor) ""); [lia|].
  assert (Hrun : forall s v,
             filter is_send (trace (emit (EvRun s) v))
             = filter is_send (trace v)).
  { intros s v. cbn [trace emit]. rewrite filter_app. simpl.
    apply app_nil_r. }
  destruct (truthy (followId_of (follow_id follow)));
    [|rewrite Hrun; cbn [trace with_db]; lia].
  destruct (accept_built cfg ctx follow _ _) as [accept|].
  - rewrite keyPairsDispatcher_sends.
    cbn [trace emit with_db with_entropy].
    rewrite !filter_app, !length_app. simpl. lia.
  - cbn [trace emit with_db with_entropy].
    rewrite !filter_app, !length_app. simpl. lia.
Qed.

Lemma record_follow_rows_kept username actor username' actor' d :
  followerRows username' actor' d <> [] ->
  followerRows username' actor' (record_follow username actor d) <> [].
Proof.
  unfold followerRows, record_follow. intros Hrows.
  destruct (existsb _ (followers d)); [exact Hrows|].
  simpl. rewrite filter_app. intros Habs.
  apply app_eq_nil in Habs. now destruct Habs.
Qed.

(** The only write of the key-pair dispatcher fills the key columns of
    the rows stored under the requested name. *)
Lemma keyPairsDispatcher_sans_keys `{Runtime} identifier w :
  map sans_keys (users (db (snd (keyPairsDispatcher identifier w))))
  = map sans_keys (users (db w)).
Proof.
  destruct (selectUser (identifier_username identifier) (db w))
    as [u|] eqn:Hsel.
  - destruct (truthy (User.publicKey u) && truthy (User.privateKey u))
      eqn:Hkeys.
    + now rewrite (keyPairsDispatcher_stored identifier w u Hsel Hkeys).
    + rewrite (keyPairsDispatcher_fresh_eq identifier w u Hsel Hkeys).
      cbn [snd db emit with_db users]. rewrite map_map.
      apply map_ext. intros x.
      destruct (String.eqb (User.username x) _); reflexivity.
  - unfold keyPairsDispatcher, bind, query. now rewrite Hsel.
Qed.

(** X7.  What the Follow listener can do.  It always returns normally:
    an invalid URL, a failed key lookup or a failed delivery on the
    Accept path is swallowed.  It never touches [posts], never adds,
    removes or reorders a row of [users] and changes no column of
    [users] other than the two key columns; when it hands no activity to
    [sendActivity] it leaves [users] as it was.  It never removes a
    follower row, changes the rows of a (username, actor) pair only if
    that is the pair the event resolves to, and hands at most one
    activity to [sendActivity]. *)
Theorem onFollow_scope :
  forall (RT : Runtime) (cfg : Config) (ctx : Context) (follow : Follow)
         (w : World),
    let w' := snd (onFollow cfg ctx follow w) in
    fst (onFollow cfg ctx follow w) = Ok tt /\
    map sans_keys (users (db w')) = map sans_keys (users (db w)) /\
    (filter is_send (trace w') = filter is_send (trace w) ->
     users (db w') = users (db w)) /\
    posts (db w') = posts (db w) /\
    (forall username' actor',
        followerRows username' actor' (db w) <> [] ->
        followerRows username' actor' (db w') <> []) /\
    (forall username' actor',
        followerRows username' actor' (db w')
        <> followerRows username' actor' (db w) ->
        follow_target ctx follow = Some (username', actor')) /\
    (length (filter is_send (trace w'))
     <= length (filter is_send (trace w)) + 1)%nat.
Proof.
  intros RT cfg ctx follow w w'. subst w'.
  destruct (onFollow_effect cfg ctx follow w) as (Hok & Hposts & Hfol).
  split; [exact Hok|].
  split.
  { rewrite onFollow_unfold. cbn [snd]. unfold onFollow_world. cbv zeta.
    destruct (truthy (resolve_username ctx)); [|reflexivity].
    destruct (follow_actorId follow) as [actor|]; [|reflexivity].
    destruct (String.eqb (href actor) ""); [reflexivity|].
    destruct (truthy (followId_of (follow_id follow)));
      [|cbn [db emit with_db]; now rewrite record_follow_users].
    destruct (accept_built cfg ctx follow _ _) as [accept|];
      [rewrite keyPairsDispatcher_sans_keys|];
      cbn [db emit with_db with_entropy]; now rewrite record_follow_users. }
  split.
  { rewrite onFollow_unfold. cbn [snd]. unfold onFollow_world. cbv zeta.
    destruct (truthy (resolve_username ctx)); [|reflexivity].
    destruct (follow_actorId follow) as [actor|]; [|reflexivity].
    destruct (String.eqb (href actor) ""); [reflexivity|].
    destruct (truthy (followId_of (follow_id follow)));
      [|intros _; cbn [db emit with_db]; now rewrite record_follow_users].
    destruct (accept_built cfg ctx follow _ _) as [accept|];
      [|intros _; cbn [db emit with_db with_entropy];
        now rewrite record_follow_users].
    rewrite keyPairsDispatcher_sends.
    cbn [trace emit with_db with_entropy].
    rewrite (filter_app is_send (trace w ++ _)).
    rewrite (filter_app is_send (trace w)). simpl. rewrite app_nil_r.
    intros Habs. apply (f_equal (@length Event)) in Habs.
    rewrite length_app in Habs. simpl in Habs. lia. }
  split.
  { rewrite Hposts.
    destruct (follow_target ctx follow) as [[username actor]|];
      [|reflexivity].
    unfold record_follow. destruct (existsb _ _); reflexivity. }
  assert (Hrows : forall username' actor',
             followerRows username' actor'
               (db (snd (onFollow cfg ctx follow w)))
             = followerRows username' actor'
                 match follow_target ctx follow with
                 | Some (username, actor) =>
                     record_follow username actor (db w)
                 | None => db w
                 end).
  { intros username' actor'. unfold followerRows. now rewrite Hfol. }
  split.
  { intros username' actor' Hkept. rewrite Hrows.
    destruct (follow_target ctx follow) as [[username actor]|];
      [now apply record_follow_rows_kept | exact Hkept]. }
  split; [|apply onFollow_sends].
  intros username' actor' Hdiff. rewrite Hrows in Hdiff.
  destruct (follow_target ctx follow) as [[username actor]|].
  - destruct (pair_eq_dec (username', actor') (username, actor)) as [E|N];
      [now rewrite E|].
    contradiction Hdiff. now apply record_follow_other.
  - now contradiction Hdiff.
Qed.

Lemma onFollow_scope_witness :
  followerRows "alice" bob
    (db (snd (onFollow (RT := sample_runtime) sample_cfg failing_ctx
                       follow_by_bob followed_world))) <> [] /\
  follow_target failing_ctx follow_by_bob = Some ("alice", bob) /\
  users (db (snd (onFollow (RT := sample_runtime) sample_cfg inbox_ctx
                           follow_without_id alice_world)))
  = users (db alice_world).
Proof.
  pose proof (onFollow_scope sample_runtime sample_cfg failing_ctx
                follow_by_bob followed_world) as H.
  cbv zeta in H. destruct H as (_ & _ & _ & _ & Hkept & _ & _).
  pose proof (onFollow_scope sample_runtime sample_cfg failing_ctx
                follow_by_bob alice_world) as H'.
  cbv zeta in H'. destruct H' as (_ & _ & _ & _ & _ & Honly & _).
  pose proof (onFollow_scope sample_runtime sample_cfg inbox_ctx
                follow_without_id alice_world) as H''.
  cbv zeta in H''. destruct H'' as (_ & _ & Hquiet & _).
  split; [|split].
  - apply Hkept. discriminate.
  - apply Honly. discriminate.
  - apply Hquiet. reflexivity.
Defined.

(** X8.  The Accept.  When the local user and the remote actor resolve,
    the Follow has a usable [id] and the three URLs parse, the listener
    records the follow and hands exactly one Accept to [sendActivity]:
    sent as the local user to the Follow's actor, with the parsed actor
    URI as [actor], the parsed Follow id as [object] and a fresh id under
    [DOMAIN/users/<username>/accepts/].  [sendActivity] then asks the
    key-pair dispatcher for the local user's keys, and the listener
    returns normally in the world that lookup leaves, whether the
    delivery succeeds or is rejected.  When the local user is not stored,
    or is stored with both keys, the lookup writes nothing; when the
    user is stored without keys, a pair is generated and stored under
    the user's name.  All of this happens whether or not the pair of
    follower and followed was already stored. *)
Theorem onFollow_accept :
  forall (RT : Runtime) (cfg : Config) (ctx : Context) (follow : Follow)
         (w : World) (username fid : string) (actor id act obj : URL),
    resolve_username ctx = Some username -> username <> "" ->
    follow_actorId follow = Some actor -> href actor <> "" ->
    followId_of (follow_id follow) = Some fid -> fid <> "" ->
    new_URL (DOMAIN cfg ++ "/users/" ++ username ++ "/accepts/"
             ++ randomUUID (entropy w)) = Some id ->
    new_URL (href (getActorUri ctx username)) = Some act ->
    new_URL fid = Some obj ->
    let handed :=
      emit (EvSend username actor (mkAccept id act obj))
           (with_entropy (S (entropy w))
              (emit (EvRun (InsertOrIgnoreFollower username (href actor)))
                    (with_db (record_follow username (href actor) (db w))
                             w))) in
    let w' := snd (onFollow cfg ctx follow w) in
    onFollow cfg ctx follow w
    = (Ok tt, snd (keyPairsDispatcher (IdentifierString username) handed)) /\
    (selectUser username (db w) = None -> w' = handed) /\
    (forall u, selectUser username (db w) = Some u ->
               truthy (User.publicKey u) && truthy (User.privateKey u) = true ->
               w' = handed) /\
    (forall u, selectUser username (db w) = Some u ->
               truthy (User.publicKey u) && truthy (User.privateKey u)
               = false ->
               let n := S (entropy w) in
               trace w'
               = trace handed
                 ++ [EvKeyGen;
                     EvRun (UpdateKeys (pub_text n) (priv_text n) username)]
               /\
               selectUser username (db w')
               = Some (User.set_keys (pub_text n) (priv_text n) u)).
Proof.
  intros RT cfg ctx follow w username fid actor id act obj
         Hname Hne Hactor Hhref Hfid Hfne Hid Hact Hobj handed w'.
  destruct (truthy_resolved ctx username Hname Hne) as [Ht Hu].
  assert (Heq : onFollow cfg ctx follow w
                = (Ok tt,
                   snd (keyPairsDispatcher (IdentifierString username)
                                           handed))).
  { rewrite onFollow_unfold. f_equal.
    unfold onFollow_world, accept_built. cbv zeta.
    rewrite Ht, Hu, Hactor, Hfid, (truthy_some _ Hfne). cbn [or_empty].
    destruct (String.eqb_spec (href actor) ""); [contradiction|].
    cbn [entropy emit with_db]. rewrite Hid, Hact, Hobj. reflexivity. }
  assert (Hsel : selectUser username (db handed)
                 = selectUser username (db w)).
  { unfold selectUser, handed. cbn [db emit with_db with_entropy].
    now rewrite record_follow_users. }
  subst w'. rewrite Heq. cbn [snd].
  split; [reflexivity|].
  split.
  { intros Hnone. rewrite <- Hsel in Hnone.
    unfold keyPairsDispatcher, bind, query.
    cbn [identifier_username]. now rewrite Hnone. }
  split.
  { intros u Hsome Hkeys. rewrite <- Hsel in Hsome.
    now rewrite (keyPairsDispatcher_stored (IdentifierString username)
                   handed u Hsome Hkeys). }
  intros u Hsome Hkeys. cbv zeta. rewrite <- Hsel in Hsome.
  destruct (keyPairsDispatcher_fresh (IdentifierString username) handed u
              Hsome Hkeys) as (_ & Htrace & Hrow & _).
  split; [exact Htrace | exact Hrow].
Qed.

Lemma onFollow_accept_witness :
  let handed :=
    emit (EvSend "alice" bob_url
            (mkAccept
               (mkURL "https://bridge.example/users/alice/accepts/a-uuid" "/")
               (mkURL "https://bridge.example/users/alice" "/")
               (mkURL "https://remote.example/activities/1" "/")))
         (with_entropy 1
            (emit (EvRun (InsertOrIgnoreFollower "alice" bob))
                  (with_db (record_follow "alice" bob (db followed_world))
                           followed_world))) in
  onFollow (RT := sample_runtime) sample_cfg failing_ctx follow_by_bob
           followed_world
  = (Ok tt,
     snd (keyPairsDispatcher (RT := sample_runtime)
                             (IdentifierString "alice") handed)) /\
  selectUser "alice"
    (db (snd (onFollow (RT := sample_runtime) sample_cfg failing_ctx
                       follow_by_bob followed_world)))
  = Some (User.set_keys (pub_text (RT := sample_runtime) 1)
                        (priv_text (RT := sample_runtime) 1) alice_row).
Proof.
  intros handed.
  pose proof (onFollow_accept sample_runtime sample_cfg failing_ctx
                follow_by_bob followed_world "alice"
                "https://remote.example/activities/1" bob_url
                (mkURL "https://bridge.example/users/alice/accepts/a-uuid"
                       "/")
                (mkURL "https://bridge.example/users/alice" "/")
                (mkURL "https://remote.example/activities/1" "/")) as H.
  cbv zeta in H.
  destruct H as (Heq & _ & _ & Hfresh);
    [reflexivity | discriminate | reflexivity | discriminate | reflexivity
    | discriminate | reflexivity | reflexivity | reflexivity |].
  split; [exact Heq|].
  apply (Hfresh alice_row); reflexivity.
Defined.

(* ================================================================== *)
(** ** Lookups and listings that bring nothing *)

(** X9.  A lookup that brings no user is not remembered.  When no row is
    stored under the requested name and the platform's answer carries no
    user, [ensureUser] makes the one request and writes nothing; it
    returns no user, except that a rejected request or an unreadable body
    escapes as an exception.  The failure is not cached: the next call
    for the same name, whenever it comes, asks the platform again. *)
Theorem ensureUser_lookup_failure :
  forall (username : string) (w : World),
    selectUser username (db w) = None ->
    no_user_payload (result (net w (user_url username))) ->
    let w1 := snd (ensureUser username w) in
    db w1 = db w /\
    trace w1 = trace w ++ [EvFetch (user_url username)] /\
    fst (ensureUser username w)
    = match result (net w (user_url username)) with
      | Rejected => Throw FetchError
      | Response true None => Throw JsonError
      | _ => Ok None
      end /\
    forall (t : Z) (n : string -> Reply),
      let w2 := with_net n (with_now t w1) in
      exists rest,
        trace (snd (ensureUser username w2))
        = trace w2 ++ EvFetch (user_url username) :: rest.
Proof.
  intros username w Hnone Hpay w1.
  assert (Hw1 : ensureUser username w
                = (match result (net w (user_url username)) with
                   | Rejected => Throw FetchError
                   | Response true None => Throw JsonError
                   | _ => Ok None
                   end,
                   with_now (now w + elapsed (net w (user_url username)))
                            (emit (EvFetch (user_url username)) w))).
  { rewrite ensureUser_unfold. unfold ensureUser_paths. rewrite Hnone.
    cbv zeta.
    destruct (result (net w (user_url username))) as [|[|] [data|]];
      try reflexivity.
    simpl in Hpay. now rewrite Hpay. }
  subst w1. rewrite Hw1. cbn [fst snd].
  split; [reflexivity|]. split; [reflexivity|]. split; [reflexivity|].
  intros t n.
  match goal with
  | |- context [with_net n ?x] => set (w2 := with_net n x)
  end.
  rewrite ensureUser_unfold. unfold ensureUser_paths.
  change (db w2) with (db w). rewrite Hnone. cbv zeta.
  destruct (result (net w2 (user_url username))) as [|[|] [data|]];
    try (exists []; reflexivity).
  destruct (userInfo data) as [info|]; try (exists []; reflexivity).
  destruct (selectUser (UserInfo.username info) (db w));
    [exists []; reflexivity|].
  eexists. cbn [snd trace emit with_db with_now].
  rewrite <- app_assoc. reflexivity.
Qed.

Lemma ensureUser_lookup_failure_witness :
  let w1 := snd (ensureUser "ghost" not_found_world) in
  db w1 = db not_found_world /\
  trace w1 = trace not_found_world ++ [EvFetch (user_url "ghost")] /\
  fst (ensureUser "ghost" not_found_world) = Ok None /\
  forall (t : Z) (n : string -> Reply),
    let w2 := with_net n (with_now t w1) in
    exists rest,
      trace (snd (ensureUser "ghost" w2))
      = trace w2 ++ EvFetch (user_url "ghost") :: rest.
Proof.
  apply (ensureUser_lookup_failure "ghost" not_found_world).
  - reflexivity.
  - exact I.
Defined.

(** X10.  An empty answer still counts as a sync.  When a call of
    [syncPosts] passes its gates and the platform answers with a success
    status and a readable body whose [postInfos] is missing or empty, the
    call returns normally, leaves [posts] as it was, runs no statement
    but the closing [UPDATE], and sets the row's [lastPostSync] to the
    clock reading at which it finished: the next TTL window starts. *)
Theorem syncPosts_empty_listing :
  forall (RT : Runtime) (cfg : Config) (username : string) (w : World)
         (u : User.t) (w0 : World) (data : Data),
    ensureUser username w = (Ok (Some u), w0) ->
    hasFollowers username (db w) = true ->
    SYNC_TTL cfg <= now w0 - User.lastPostSync u ->
    result (net w0 (posts_url (User.userId u))) = Response true (Some data) ->
    postInfos_or_empty data = [] ->
    let w1 := snd (syncPosts cfg username w) in
    fst (syncPosts cfg username w) = Ok tt /\
    posts (db w1) = posts (db w) /\
    now w1 = now w0 + elapsed (net w0 (posts_url (User.userId u))) /\
    selectUser username (db w1) = Some (User.set_lastPostSync (now w1) u) /\
    trace w1 = trace w0 ++ [EvFetch (posts_url (User.userId u));
                            EvRun (UpdateLastPostSync (now w1) username)].
Proof.
  intros RT cfg username w u w0 data Hens Hfol Httl Hnet Hempty w1.
  subst w1. rewrite (syncPosts_at_fetch cfg username w u w0 Hens Hfol Httl).
  cbv zeta. rewrite Hnet, Hempty. cbn [fst snd].
  split; [reflexivity|]. split.
  { unfold sync_commit, upsert_world, upsert_posts. simpl.
    pose proof (ensureUser_other_tables username w) as [E _].
    now rewrite Hens in E. }
  split; [reflexivity|]. split.
  { rewrite (sync_commit_selectUser username _ _ u); [reflexivity|].
    exact (ensureUser_returns_selected _ _ _ _ Hens). }
  unfold sync_commit, upsert_world. simpl.
  rewrite app_nil_r, <- app_assoc. reflexivity.
Qed.

Lemma syncPosts_empty_listing_witness :
  let w1 := snd (syncPosts (RT := sample_runtime) sample_cfg "alice"
                           quiet_world) in
  fst (syncPosts (RT := sample_runtime) sample_cfg "alice" quiet_world)
  = Ok tt /\
  posts (db w1) = posts (db quiet_world) /\
  now w1 = now quiet_world
           + elapsed (net quiet_world (posts_url (User.userId alice_row))) /\
  selectUser "alice" (db w1)
  = Some (User.set_lastPostSync (now w1) alice_row) /\
  trace w1 = trace quiet_world
             ++ [EvFetch (posts_url (User.userId alice_row));
                 EvRun (UpdateLastPostSync (now w1) "alice")].
Proof.
  apply (syncPosts_empty_listing sample_runtime sample_cfg "alice"
           quiet_world alice_row quiet_world (mkData None None)).
  - reflexivity.
  - reflexivity.
  - vm_compute. discriminate.
  - reflexivity.
  - reflexivity.
Defined.

(* ================================================================== *)
(** ** Sync and key generation keep out of each other's way *)

Lemma ensureUser_keeps_row username w name u :
  selectUser name (db w) = Some u ->
  selectUser name (db (snd (ensureUser username w))) = Some u.
Proof.
  intros Hsel. rewrite ensureUser_unfold. unfold ensureUser_paths.
  destruct (selectUser username (db w)); [exact Hsel|].
  destruct (result (net w (user_url username))) as [|[|] [data|]];
    try exact Hsel.
  destruct (userInfo data) as [info|]; try exact Hsel.
  destruct (selectUser (UserInfo.username info) (db w)); try exact Hsel.
  cbn [snd db emit with_db]. unfold selectUser in *. simpl.
  now rewrite find_app_l, Hsel.
Qed.

Lemma sync_commit_selectUser_any `{Runtime} username ps w name :
  selectUser name (db (sync_commit username ps w))
  = option_map (fun u => if String.eqb (User.username u) username
                         then User.set_lastPostSync (now w) u else u)
               (selectUser name (db w)).
Proof.
  unfold sync_commit, upsert_world, selectUser. simpl.
  rewrite find_update_users by reflexivity.
  destruct (find _ (users (db w))); reflexivity.
Qed.

(** X11.  Synchronising never touches key material and key dispatch
    never touches the sync state.  A row stored before a call of
    [syncPosts] is stored afterwards with the same [publicKey] and
    [privateKey]; a row stored before a call of the key-pair dispatcher
    is stored afterwards with the same [lastPostSync]; the dispatcher
    leaves [posts] and [followers] alone, and [syncPosts] leaves
    [followers] alone. *)
Theorem sync_and_keys_independent :
  forall (RT : Runtime) (cfg : Config) (username : string)
         (identifier : Identifier) (w : World) (name : string) (u : User.t),
    selectUser name (db w) = Some u ->
    (exists u',
        selectUser name (db (snd (syncPosts cfg username w))) = Some u' /\
        User.publicKey u' = User.publicKey u /\
        User.privateKey u' = User.privateKey u) /\
    (exists u',
        selectUser name (db (snd (keyPairsDispatcher identifier w)))
        = Some u' /\
        User.lastPostSync u' = User.lastPostSync u) /\
    posts (db (snd (keyPairsDispatcher identifier w))) = posts (db w) /\
    followers (db (snd (keyPairsDispatcher identifier w)))
    = followers (db w) /\
    followers (db (snd (syncPosts cfg username w))) = followers (db w).
Proof.
  intros RT cfg username identifier w name u Hsel.
  pose proof (ensureUser_keeps_row username w name u Hsel) as Hkeep.
  pose proof (ensureUser_other_tables username w) as [_ Hfol].
  assert (Hsync :
            (exists u',
                selectUser name (db (snd (syncPosts cfg username w)))
                = Some u' /\
                User.publicKey u' = User.publicKey u /\
                User.privateKey u' = User.privateKey u) /\
            followers (db (snd (syncPosts cfg username w)))
            = followers (db w)).
  { rewrite syncPosts_unfold. unfold syncPosts_paths.
    destruct (ensureUser username w) as [[[v|]|e] w1]; cbn [snd] in *;
      try (split; [exists u; solve [auto] | exact Hfol]).
    destruct (hasFollowers username (db w1)); cbn [negb];
      [|split; [exists u; solve [auto] | exact Hfol]].
    destruct (now w1 - User.lastPostSync v <? SYNC_TTL cfg);
      [split; [exists u; solve [auto] | exact Hfol]|].
    destruct (result (net w1 (posts_url (User.userId v))))
      as [|[|] [data|]];
      try (split; [exists u; solve [auto] | exact Hfol]).
    cbn [snd]. split; [|exact Hfol].
    rewrite sync_commit_selectUser_any. cbn [db with_now emit].
    rewrite Hkeep. simpl.
    eexists. split; [reflexivity|].
    destruct (String.eqb (User.username u) username); auto. }
  destruct Hsync as [Hs1 Hs2].
  split; [exact Hs1|].
  assert (Hkeys :
            (exists u',
                selectUser name (db (snd (keyPairsDispatcher identifier w)))
                = Some u' /\
                User.lastPostSync u' = User.lastPostSync u) /\
            posts (db (snd (keyPairsDispatcher identifier w)))
            = posts (db w) /\
            followers (db (snd (keyPairsDispatcher identifier w)))
            = followers (db w)).
  { destruct (selectUser (identifier_username identifier) (db w))
      as [v|] eqn:Hv.
    - destruct (truthy (User.publicKey v) && truthy (User.privateKey v))
        eqn:Hk.
      + rewrite (keyPairsDispatcher_stored identifier w v Hv Hk).
        cbn [snd]. split; [exists u; auto | auto].
      + rewrite (keyPairsDispatcher_fresh_eq identifier w v Hv Hk).
        cbn [snd db emit with_db posts followers].
        split; [|auto].
        unfold selectUser in *. cbn [users].
        rewrite find_update_users by reflexivity. rewrite Hsel.
        eexists. split; [reflexivity|].
        destruct (String.eqb (User.username u)
                             (identifier_username identifier)); auto.
    - unfold keyPairsDispatcher, bind, query. rewrite Hv. cbn [snd].
      split; [exists u; auto | auto]. }
  destruct Hkeys as (Hk1 & Hk2 & Hk3). auto.
Qed.

Lemma sync_and_keys_independent_witness :
  (exists u',
      selectUser "alice"
        (db (snd (syncPosts (RT := sample_runtime) sample_cfg "alice"
                            (with_db (db keyed_world) followed_world))))
      = Some u' /\
      User.publicKey u' = User.publicKey alice_keyed_row /\
      User.privateKey u' = User.privateKey alice_keyed_row) /\
  (exists u',
      selectUser "alice"
        (db (snd (keyPairsDispatcher (RT := sample_runtime)
                    (IdentifierString "alice") stocked_world)))
      = Some u' /\
      User.lastPostSync u' = 999000).
Proof.
  split.
  - apply (proj1 (sync_and_keys_independent sample_runtime sample_cfg "alice"
                    (IdentifierString "alice")
                    (with_db (db keyed_world) followed_world)
                    "alice" alice_keyed_row eq_refl)).
  - apply (proj1 (proj2 (sync_and_keys_independent sample_runtime sample_cfg
                           "alice" (IdentifierString "alice") stocked_world
                           "alice" (User.set_lastPostSync 999000 alice_row)
                           eq_refl))).
Defined.

(* ================================================================== *)
(** ** From the platform to the outbox *)

Lemma sensitive_round_trip (b : bool) :
  negb ((if b then 1 else 0) =? 0) = b.
Proof. destruct b; reflexivity. Qed.

Lemma In_selectPosts `{Runtime} username d row :
  In row (posts d) -> Post.username row = username ->
  In row (selectPosts username d).
Proof.
  intros Hin Hname. unfold selectPosts.
  eapply Permutation_in;
    [symmetry; apply order_by_createdAt_desc_perm|].
  apply filter_In. split; [exact Hin|].
  rewrite Hname. apply String.eqb_refl.
Qed.

(** X12.  A post the platform lists is stored for the outbox by the same
    request, and the request then fails.  When the outbox is asked for a
    followed user whose sync gates pass and the platform answers with a
    listing, every postId the listing mentions is afterwards stored in
    exactly one row, built from its last mention: the row is among those
    the dispatcher selects for the user, its title is that entry's title,
    its [createdAt] the entry's [createTime], and its [sensitive] column
    is 1 or 0 and reads back as the entry's [isSensitive].  The selection
    being non-empty, the first [new Note] raises a [TypeError] for its
    string [id], so the dispatcher returns no collection. *)
Theorem listed_post_reaches_store :
  forall (RT : Runtime) (cfg : Config) (ctx : Context)
         (identifier : Identifier) (w : World) (u : User.t) (w0 : World)
         (data : Data) (postId : string) (p : PostInfo.t),
    let username := identifier_username identifier in
    ensureUser username w = (Ok (Some u), w0) ->
    hasFollowers username (db w) = true ->
    SYNC_TTL cfg <= now w0 - User.lastPostSync u ->
    result (net w0 (posts_url (User.userId u))) = Response true (Some data) ->
    last_with postId (postInfos_or_empty data) = Some p ->
    let w' := snd (outboxDispatcher cfg ctx identifier w) in
    let row := post_row username p in
    postRows postId (db w') = [row] /\
    In row (selectPosts username (db w')) /\
    Post.title row = PostInfo.title p /\
    Post.createdAt row = PostInfo.createTime p /\
    negb (Post.sensitive row =? 0) = PostInfo.isSensitive p /\
    note_id_text cfg username row
    = (DOMAIN cfg ++ "/users/" ++ username ++ "/posts/"
       ++ PostInfo.postId p)%string /\
    fst (outboxDispatcher cfg ctx identifier w) = Throw TypeError.
Proof.
  intros RT cfg ctx identifier w u w0 data postId p username
         Hens Hfol Httl Hnet Hlast w' row.
  subst w'. rewrite outboxDispatcher_unfold. cbv zeta. fold username.
  rewrite Hfol.
  rewrite (syncPosts_at_fetch cfg username w u w0 Hens Hfol Httl).
  cbv zeta. rewrite Hnet. cbn [fst snd].
  match goal with
  | |- postRows postId (db ?v) = _ /\ _ =>
      assert (Hrows : postRows postId (db v) = [row]);
      [|assert (Hin : In row (selectPosts username (db v)))]
  end.
  { rewrite sync_commit_postRows. now rewrite Hlast. }
  { apply In_selectPosts; [|reflexivity].
    unfold postRows in Hrows.
    match type of Hrows with
    | filter ?f ?l = _ =>
        assert (Hin : In row (filter f l)) by (rewrite Hrows; now left)
    end.
    apply filter_In in Hin. tauto. }
  split; [exact Hrows|]. split; [exact Hin|].
  split; [reflexivity|]. split; [reflexivity|].
  split; [apply sensitive_round_trip|]. split; [reflexivity|].
  destruct (selectPosts username _); [contradiction | reflexivity].
Qed.

Lemma listed_post_reaches_store_witness :
  let w' := snd (outboxDispatcher (RT := sample_runtime) sample_cfg
                   sample_ctx (IdentifierString "alice") followed_world) in
  postRows "p-1" (db w')
  = [post_row (RT := sample_runtime) "alice" first_post] /\
  In (post_row (RT := sample_runtime) "alice" first_post)
     (selectPosts "alice" (db w')) /\
  fst (outboxDispatcher (RT := sample_runtime) sample_cfg sample_ctx
                        (IdentifierString "alice") followed_world)
  = Throw TypeError.
Proof.
  pose proof (listed_post_reaches_store sample_runtime sample_cfg sample_ctx
                (IdentifierString "alice") followed_world alice_row
                followed_world (mkData None (Some [first_post])) "p-1"
                first_post) as H.
  cbv zeta in H.
  destruct H as (Hrows & Hin & _ & _ & _ & _ & Hres);
    [reflexivity | reflexivity | vm_compute; discriminate | reflexivity
    | reflexivity |].
  cbv zeta. split; [exact Hrows|]. split; [exact Hin | exact Hres].
Defined.

(** X13.  Within the TTL an outbox request reaches neither the platform
    nor the store.  For a stored, followed user whose last sync is less
    than [SYNC_TTL] old, the dispatcher leaves the world exactly as it
    was, so its outcome does not depend on the platform being reachable.
    It returns the empty collection when no post is stored under the
    user; when one is, the first [new Note] raises a [TypeError] for its
    string [id]. *)
Theorem outbox_within_ttl :
  forall (RT : Runtime) (cfg : Config) (ctx : Context)
         (identifier : Identifier) (w : World) (u : User.t),
    let username := identifier_username identifier in
    selectUser username (db w) = Some u ->
    hasFollowers username (db w) = true ->
    now w - User.lastPostSync u < SYNC_TTL cfg ->
    outboxDispatcher cfg ctx identifier w
    = (match selectPosts username (db w) with
       | [] => Ok []
       | _ :: _ => Throw TypeError
       end, w).
Proof.
  intros RT cfg ctx identifier w u username Hsel Hfol Hfresh.
  rewrite outboxDispatcher_unfold. cbv zeta. fold username. rewrite Hfol.
  rewrite syncPosts_unfold. unfold syncPosts_paths.
  rewrite (ensureUser_hit _ _ _ Hsel), Hfol. cbn [negb].
  destruct (Z.ltb_spec (now w - User.lastPostSync u) (SYNC_TTL cfg));
    [reflexivity | lia].
Qed.

Lemma outbox_within_ttl_witness :
  outboxDispatcher (RT := sample_runtime) sample_cfg sample_ctx
                   (IdentifierString "alice")
                   (with_net no_net stocked_world)
  = (Throw TypeError, with_net no_net stocked_world).
Proof.
  apply (outbox_within_ttl sample_runtime sample_cfg sample_ctx
           (IdentifierString "alice") (with_net no_net stocked_world)
           (User.set_lastPostSync 999000 alice_row)).
  - reflexivity.
  - reflexivity.
  - vm_compute. reflexivity.
Defined.

(* ================================================================== *)
(** ** Followers open and close the outbox *)

Lemma filter_comm {A} (f g : A -> bool) (l : list A) :
  filter f (filter g l) = filter g (filter f l).
Proof.
  induction l as [|a l IH]; simpl; [reflexivity|].
  destruct (g a) eqn:Eg, (f a) eqn:Ef; simpl;
    rewrite ?Eg, ?Ef, IH; reflexivity.
Qed.

Lemma hasFollowers_false username d :
  hasFollowers username d = false <->
  filter (fun f => String.eqb (Follower.username f) username) (followers d)
  = [].
Proof.
  unfold hasFollowers, countFollowers.
  destruct (filter _ (followers d)) as [|f l]; simpl; split; intros H;
    try reflexivity; discriminate.
Qed.

Lemma follow_then_undo_unfollowed username actor d :
  hasFollowers username d = false ->
  hasFollowers username
    (remove_follow username actor (record_follow username actor d)) = false.
Proof.
  intros Hnone. apply hasFollowers_false in Hnone.
  apply hasFollowers_false. unfold remove_follow, record_follow.
  destruct (existsb _ (followers d)); simpl.
  - rewrite filter_comm, Hnone. reflexivity.
  - rewrite filter_comm, filter_app, Hnone. simpl.
    rewrite String.eqb_refl. simpl.
    unfold Follower.is_pair. simpl. now rewrite !String.eqb_refl.
Qed.

(** X14.  The last unfollow closes the outbox, and only the last.  If a
    local user has no follower, a Follow by a remote actor followed by
    the Undo of that Follow leaves the user without followers, and the
    outbox dispatcher then returns the empty sequence without doing
    anything.  If some other actor had a follower row for the user
    before, the user still counts as followed after the Undo. *)
Theorem last_unfollow_closes_outbox :
  forall (RT : Runtime) (cfg : Config) (ctx ctx' octx : Context)
         (identifier : Identifier) (follow : Follow) (undo : Undo)
         (undone : Follow) (w : World) (username : string) (actor : URL),
    resolve_username ctx = Some username ->
    resolve_username ctx' = Some username ->
    username <> "" ->
    identifier_username identifier = username ->
    follow_actorId follow = Some actor ->
    undo_actorId undo = Some actor ->
    href actor <> "" ->
    undo_getObject undo = ObjectFollow undone ->
    let w2 := snd (onUndo ctx' undo (snd (onFollow cfg ctx follow w))) in
    (hasFollowers username (db w) = false ->
     hasFollowers username (db w2) = false /\
     outboxDispatcher cfg octx identifier w2 = (Ok [], w2)) /\
    (forall other,
        other <> href actor ->
        followerRows username other (db w) <> [] ->
        hasFollowers username (db w2) = true).
Proof.
  intros RT cfg ctx ctx' octx identifier follow undo undone w username actor
         Hname Hname' Hne Hident Hactor Hactor' Hhref Hobj w2.
  destruct (truthy_resolved ctx username Hname Hne) as [Ht Hu].
  assert (Hfol2 : followers (db w2)
                  = followers (remove_follow username (href actor)
                                 (record_follow username (href actor)
                                                (db w)))).
  { subst w2.
    rewrite (onUndo_follow ctx' undo _ username actor undone
               Hname' Hne Hobj Hactor' Hhref).
    cbn [snd db emit with_db]. unfold remove_follow. cbn [followers].
    destruct (onFollow_effect cfg ctx follow w) as (_ & _ & E). rewrite E.
    unfold follow_target. rewrite Ht, Hu, Hactor.
    destruct (String.eqb_spec (href actor) ""); [contradiction|].
    reflexivity. }
  split.
  - intros Hnone.
    assert (Hnone2 : hasFollowers username (db w2) = false).
    { rewrite (hasFollowers_followers username _ _ Hfol2).
      now apply follow_then_undo_unfollowed. }
    split; [exact Hnone2|].
    rewrite outboxDispatcher_unfold. cbv zeta. now rewrite Hident, Hnone2.
  - intros other Hother Hrows.
    apply (followerRows_hasFollowers username other).
    unfold followerRows. rewrite Hfol2.
    fold (followerRows username other
            (remove_follow username (href actor)
               (record_follow username (href actor) (db w)))).
    rewrite remove_follow_other, record_follow_other;
      [exact Hrows | congruence | congruence].
Qed.

Lemma last_unfollow_closes_outbox_witness :
  (let w2 := snd (onUndo inbox_ctx undo_by_bob
                    (snd (onFollow (RT := sample_runtime) sample_cfg
                                   sample_ctx follow_by_bob alice_world))) in
   hasFollowers "alice" (db w2) = false /\
   outboxDispatcher (RT := sample_runtime) sample_cfg sample_ctx
                    (IdentifierString "alice") w2 = (Ok [], w2)) /\
  hasFollowers "alice"
    (db (snd (onUndo inbox_ctx undo_by_bob
                (snd (onFollow (RT := sample_runtime) sample_cfg sample_ctx
                               follow_by_bob twice_followed_world)))))
  = true.
Proof.
  split.
  - apply (proj1 (last_unfollow_closes_outbox sample_runtime sample_cfg
                    sample_ctx inbox_ctx sample_ctx
                    (IdentifierString "alice") follow_by_bob undo_by_bob
                    follow_by_bob alice_world "alice" bob_url
                    eq_refl eq_refl ltac:(discriminate) eq_refl eq_refl
                    eq_refl ltac:(discriminate) eq_refl)).
    reflexivity.
  - apply (proj2 (last_unfollow_closes_outbox sample_runtime sample_cfg
                    sample_ctx inbox_ctx sample_ctx
                    (IdentifierString "alice") follow_by_bob undo_by_bob
                    follow_by_bob twice_followed_world "alice" bob_url
                    eq_refl eq_refl ltac:(discriminate) eq_refl eq_refl
                    eq_refl ltac:(discriminate) eq_refl) carol);
      discriminate.
Defined.

(* ================================================================== *)
(** ** Note ids *)

Lemma append_inj_l (a x y : string) :
  (a ++ x)%string = (a ++ y)%string -> x = y.
Proof.
  induction a as [|c a IH]; simpl; [auto|].
  intros H. inversion H. auto.
Qed.

Lemma NoDup_map_inj {A B C} (f : A -> B) (g : A -> C) (l : list A) :
  (forall a b, g a = g b -> f a = f b) ->
  NoDup (map f l) -> NoDup (map g l).
Proof.
  intros Hinj. induction l as [|a l IH]; simpl; [constructor|].
  intros Hnd. inversion Hnd as [|? ? Hnotin Hrest]; subst.
  constructor; [|auto].
  intros Hin. apply Hnotin. apply in_map_iff in Hin.
  destruct Hin as (b & Eb & Hb). apply in_map_iff.
  exists b. split; [apply Hinj; exact Eb | exact Hb].
Qed.

(** X15.  Distinct posts get distinct Note id texts.  In a store with
    one row per postId, the rows the outbox dispatcher selects for a
    user are as many as the rows stored under that name, carry pairwise
    distinct postIds, and the id texts
    [DOMAIN/users/<username>/posts/<postId>] the dispatcher computes for
    them are pairwise distinct. *)
Theorem outbox_rows_distinct :
  forall (cfg : Config) (username : string) (d : DB),
    keys_unique d ->
    length (selectPosts username d)
    = length (filter (fun p => String.eqb (Post.username p) username)
                     (posts d)) /\
    NoDup (map Post.postId (selectPosts username d)) /\
    NoDup (map (note_id_text cfg username) (selectPosts username d)).
Proof.
  intros cfg username d (_ & Hposts & _).
  assert (Hids : NoDup (map Post.postId (selectPosts username d))).
  { unfold selectPosts.
    eapply Permutation_NoDup;
      [apply Permutation_map; symmetry;
       apply order_by_createdAt_desc_perm|].
    now apply NoDup_map_filter. }
  split; [|split; [exact Hids|]].
  - unfold selectPosts.
    apply Permutation_length, order_by_createdAt_desc_perm.
  - apply (NoDup_map_inj Post.postId); [|exact Hids].
    intros a b E. unfold note_id_text in E.
    apply append_inj_l in E. apply append_inj_l in E.
    apply append_inj_l in E. now apply append_inj_l in E.
Qed.

Lemma outbox_rows_distinct_witness :
  length (selectPosts "alice" (db stocked_world))
  = length (filter (fun p => String.eqb (Post.username p) "alice")
                   (posts (db stocked_world))) /\
  NoDup (map Post.postId (selectPosts "alice" (db stocked_world))) /\
  NoDup (map (note_id_text sample_cfg "alice")
             (selectPosts "alice" (db stocked_world))).
Proof.
  apply (outbox_rows_distinct sample_cfg "alice" (db stocked_world)).
  unfold keys_unique. simpl.
  repeat split; repeat constructor; simpl; intuition discriminate.
Defined.

(* ================================================================== *)
(** ** The actor dispatcher *)

Lemma actorDispatcher_unfold `{Runtime} ctx identifier w :
  actorDispatcher ctx identifier w = actorDispatcher_paths ctx identifier w.
Proof.
  unfold actorDispatcher, actorDispatcher_paths. cbv zeta.
  unfold bind at 1.
  destruct (ensureUser (identifier_username identifier) w)
    as [[[u|]|e] w0]; try reflexivity.
  unfold bind at 1.
  destruct (getActorKeyPairs ctx (identifier_username identifier) w0)
    as [[kps|e] w1]; [|reflexivity].
  unfold bind, construct_URL.
  destruct (new_URL _); [|reflexivity].
  destruct kps; reflexivity.
Qed.

(** X16.  The actor dispatcher never serves an actor.  If [ensureUser]
    yields no user, the dispatcher answers with no actor and does not
    ask for key pairs, whatever the context.  If [ensureUser] yields a
    user, the dispatcher asks for the key pairs and then raises: the
    key lookup's own exception, or else a [TypeError], because the
    [Person]'s [id] is handed over as a string.  When
    [ctx.getActorKeyPairs] runs the registered key-pair dispatcher and
    the row has no stored keys, the request still generates one pair and
    stores both exports on the row before it raises, and the next
    request for the same identifier raises again and changes nothing. *)
Theorem actorDispatcher_outcomes :
  forall (RT : Runtime) (ctx : ActorContext) (identifier : Identifier)
         (w : World),
    let username := identifier_username identifier in
    (forall person,
        fst (actorDispatcher ctx identifier w) <> Ok (Some person)) /\
    (fst (ensureUser username w) = Ok None ->
     actorDispatcher ctx identifier w
     = (Ok None, snd (ensureUser username w))) /\
    (forall u w0,
        ensureUser username w = (Ok (Some u), w0) ->
        snd (actorDispatcher ctx identifier w)
        = snd (getActorKeyPairs ctx username w0) /\
        fst (actorDispatcher ctx identifier w)
        = match fst (getActorKeyPairs ctx username w0) with
          | Ok _ => Throw TypeError
          | Throw e => Throw e
          end) /\
    (forall u w0,
        runs_registered_dispatcher ctx ->
        ensureUser username w = (Ok (Some u), w0) ->
        truthy (User.publicKey u) && truthy (User.privateKey u) = false ->
        let n := entropy w0 in
        let w1 := snd (actorDispatcher ctx identifier w) in
        fst (actorDispatcher ctx identifier w) = Throw TypeError /\
        trace w1 = trace w0 ++ [EvKeyGen;
                                EvRun (UpdateKeys (pub_text n) (priv_text n)
                                                  username)] /\
        selectUser username (db w1)
        = Some (User.set_keys (pub_text n) (priv_text n) u) /\
        snd (actorDispatcher ctx identifier w1) = w1 /\
        exists e, fst (actorDispatcher ctx identifier w1) = Throw e).
Proof.
  intros RT ctx identifier w username.
  assert (Hpaths : forall v,
             actorDispatcher ctx identifier v
             = actorDispatcher_paths ctx identifier v)
    by (intros v; apply actorDispatcher_unfold).
  split.
  { intros person. rewrite Hpaths. unfold actorDispatcher_paths. cbv zeta.
    destruct (ensureUser _ w) as [[[u|]|e] w0]; try discriminate.
    destruct (getActorKeyPairs ctx _ w0) as [[kps|e] w1]; discriminate. }
  split.
  { intros Hnone. rewrite Hpaths.
    unfold actorDispatcher_paths. cbv zeta. fold username.
    destruct (ensureUser username w) as [[[u|]|e] w0];
      simpl in Hnone; try discriminate. reflexivity. }
  split.
  { intros u w0 Hens. rewrite Hpaths.
    unfold actorDispatcher_paths. cbv zeta. fold username. rewrite Hens.
    destruct (getActorKeyPairs ctx username w0) as [[kps|e] w1];
      split; reflexivity. }
  intros u w0 Hreg Hens Hkeys n w1.
  pose proof (ensureUser_returns_selected _ _ _ _ Hens) as Hsel.
  assert (Hsel' : selectUser (identifier_username (IdentifierString username))
                             (db w0) = Some u) by exact Hsel.
  pose proof (keyPairsDispatcher_fresh_eq (IdentifierString username)
                w0 u Hsel' Hkeys) as Hgen.
  cbv zeta in Hgen. cbn [identifier_username] in Hgen. fold n in Hgen.
  destruct (keyPairsDispatcher_fresh (IdentifierString username)
              w0 u Hsel' Hkeys) as (_ & _ & Hsel1 & _).
  cbn [identifier_username] in Hsel1. fold n in Hsel1.
  assert (Hrun : actorDispatcher ctx identifier w
                 = (Throw TypeError,
                    snd (keyPairsDispatcher (IdentifierString username)
                                            w0))).
  { rewrite Hpaths. unfold actorDispatcher_paths.
    cbv zeta. fold username. rewrite Hens, Hreg, Hgen. reflexivity. }
  subst w1. rewrite Hrun. cbn [fst snd].
  split; [reflexivity|].
  split; [rewrite Hgen; simpl; now rewrite <- app_assoc|].
  split; [exact Hsel1|].
  set (w1 := snd (keyPairsDispatcher (IdentifierString username) w0)) in *.
  assert (Hstored : truthy (User.publicKey
                              (User.set_keys (pub_text n) (priv_text n) u))
                    && truthy (User.privateKey
                                 (User.set_keys (pub_text n) (priv_text n) u))
                    = true).
  { cbn [User.publicKey User.privateKey User.set_keys].
    unfold pub_text, priv_text.
    now rewrite !truthy_some by apply JSON_stringify_nonempty. }
  assert (Hnext : exists e,
             actorDispatcher ctx identifier w1 = (Throw e, w1)).
  { rewrite Hpaths. unfold actorDispatcher_paths. cbv zeta. fold username.
    rewrite (ensureUser_hit _ _ _ Hsel1), Hreg.
    rewrite (keyPairsDispatcher_stored (IdentifierString username) w1 _
               Hsel1 Hstored).
    repeat match goal with
           | |- context [deserialize ?k ?use] => destruct (deserialize k use)
           end;
      eexists; reflexivity. }
  destruct Hnext as [e He]. rewrite He.
  split; [reflexivity | now exists e].
Qed.

Lemma actorDispatcher_outcomes_witness :
  actorDispatcher sample_actor_ctx (IdentifierString "ghost") not_found_world
  = (Ok None, snd (ensureUser "ghost" not_found_world))
  /\
  (let w1 := snd (actorDispatcher sample_actor_ctx (IdentifierObject "alice")
                                  fresh_world) in
   fst (actorDispatcher sample_actor_ctx (IdentifierObject "alice")
                        fresh_world) = Throw TypeError /\
   selectUser "alice" (db w1) = Some alice_keyed_row /\
   snd (actorDispatcher sample_actor_ctx (IdentifierObject "alice") w1)
   = w1).
Proof.
  pose proof (actorDispatcher_outcomes sample_runtime sample_actor_ctx
                (IdentifierString "ghost") not_found_world) as Hghost.
  pose proof (actorDispatcher_outcomes sample_runtime sample_actor_ctx
                (IdentifierObject "alice") fresh_world) as Halice.
  cbv zeta in Hghost, Halice.
  destruct Hghost as (_ & Hnone & _).
  destruct Halice as (_ & _ & _ & Hfresh).
  split.
  - apply Hnone. reflexivity.
  - destruct (Hfresh alice_row alice_world) as (Hres & _ & Hsel & Hsame & _).
    + intros name v. reflexivity.
    + reflexivity.
    + reflexivity.
    + cbv zeta. split; [exact Hres|]. split; [exact Hsel | exact Hsame].
Defined.

(* ================================================================== *)
(** ** Whose post it is *)

(** X17.  A synced post belongs to the user it was synced for.  After a
    call of [syncPosts] that fetched a listing, every listed postId has
    its single row under the syncing username, whatever owner a stored
    row with that postId had; so the post is no longer among the posts
    selected for any other username. *)
Theorem sync_takes_ownership :
  forall (RT : Runtime) (cfg : Config) (username : string) (w : World)
         (u : User.t) (w0 : World) (data : Data) (postId : string)
         (p : PostInfo.t),
    ensureUser username w = (Ok (Some u), w0) ->
    hasFollowers username (db w) = true ->
    SYNC_TTL cfg <= now w0 - User.lastPostSync u ->
    result (net w0 (posts_url (User.userId u))) = Response true (Some data) ->
    last_with postId (postInfos_or_empty data) = Some p ->
    let d1 := db (snd (syncPosts cfg username w)) in
    (forall row, In row (posts d1) -> Post.postId row = postId ->
                 Post.username row = username) /\
    (forall other row,
        other <> username -> In row (selectPosts other d1) ->
        Post.postId row <> postId).
Proof.
  intros RT cfg username w u w0 data postId p Hens Hfol Httl Hnet Hlast d1.
  assert (Hrows : postRows postId d1 = [post_row username p]).
  { subst d1.
    rewrite (syncPosts_at_fetch cfg username w u w0 Hens Hfol Httl).
    cbv zeta. rewrite Hnet. cbn [snd].
    rewrite sync_commit_postRows. now rewrite Hlast. }
  assert (Hown : forall row, In row (posts d1) -> Post.postId row = postId ->
                             Post.username row = username).
  { intros row Hin Hid.
    assert (Hin' : In row (postRows postId d1)).
    { unfold postRows. apply filter_In. split; [exact Hin|].
      now apply String.eqb_eq. }
    rewrite Hrows in Hin'. destruct Hin' as [<-|[]]. reflexivity. }
  split; [exact Hown|].
  intros other row Hother Hin Hid.
  unfold selectPosts in Hin.
  eapply Permutation_in in Hin; [|apply order_by_createdAt_desc_perm].
  apply filter_In in Hin. destruct Hin as [Hin Hname].
  apply String.eqb_eq in Hname.
  rewrite (Hown row Hin Hid) in Hname. congruence.
Qed.

Lemma sync_takes_ownership_witness :
  let d1 := db (snd (syncPosts (RT := sample_runtime) sample_cfg "alice"
                               contested_world)) in
  (forall row, In row (posts d1) -> Post.postId row = "p-1" ->
               Post.username row = "alice") /\
  (forall other row,
      other <> "alice" -> In row (selectPosts other d1) ->
      Post.postId row <> "p-1").
Proof.
  apply (sync_takes_ownership sample_runtime sample_cfg "alice"
           contested_world alice_row contested_world
           (mkData None (Some [first_post])) "p-1" first_post).
  - reflexivity.
  - reflexivity.
  - vm_compute. discriminate.
  - reflexivity.
  - reflexivity.
Defined.
